(** * Face recognition attendance system: gallery, enrollment and matching

    A shallow embedding of [db_operations.py] (class [DatabaseManager]),
    [face_recognition_module.py] (class [FaceRecognitionSystem]) and of the
    one place of [app.py] that calls the matcher, followed by the properties
    of the enrollment and recognition operations.

    Conventions.
    - Python objects mutated in place are threaded explicitly: a method
      [m(self, x)] becomes a computation [m x : Py Self A] that maps the
      object before the call to an outcome and the object after it.
    - A Python exception that no [except] clause of the program catches is an
      outcome [Raise e]; [mysql.connector.Error] never appears as an outcome
      because every method of [DatabaseManager] catches it.
    - Distances are the floating-point numbers the [face_recognition] library
      returns.  Every finite double is a rational, and [<=] and [<] on finite
      doubles agree with the order of the rationals, so distances are values
      of [Q]; NaN and infinities are not represented. *)

From Stdlib Require Import List String ZArith QArith Qabs Bool Lia PeanoNat.
From Stdlib Require Import Permutation.
Import ListNotations.
Close Scope Q_scope.
Local Open Scope list_scope.

(** ** Python outcomes and the state-and-exception monad *)

Inductive Exn : Type :=
| AttributeError   (* attribute access on [None] *)
| IndexError       (* list index out of range *)
| ValueError       (* [np.argmin] of an empty sequence *)
| OtherError (text : string).
                   (* any other exception, [text] being its [str(e)]:
                      [pickle.UnpicklingError], [cv2.error], ... *)

Inductive Outcome (A : Type) : Type :=
| Return (a : A)
| Raise (e : Exn).
Arguments Return {A} a.
Arguments Raise {A} e.

Definition Py (S A : Type) : Type := S -> Outcome A * S.

Definition ret {S A : Type} (a : A) : Py S A := fun s => (Return a, s).

Definition raise {S A : Type} (e : Exn) : Py S A := fun s => (Raise e, s).

Definition bind {S A B : Type} (m : Py S A) (k : A -> Py S B) : Py S B :=
  fun s =>
    match m s with
    | (Return a, s') => k a s'
    | (Raise e, s') => (Raise e, s')
    end.

Definition get {S : Type} : Py S S := fun s => (Return s, s).

Definition put {S : Type} (s : S) : Py S unit := fun _ => (Return tt, s).

Declare Scope py_scope.
Delimit Scope py_scope with py.
Notation "x <- m ;; k" := (bind m (fun x => k))
  (at level 61, m at next level, right associativity) : py_scope.
Notation "m ;;; k" := (bind m (fun _ => k))
  (at level 61, right associativity) : py_scope.

(** [l[i]] for a non-negative index: [IndexError] when out of range. *)
Definition index {S A : Type} (l : list A) (i : nat) : Py S A :=
  match nth_error l i with
  | Some a => ret a
  | None => raise IndexError
  end.

(** ** numpy: [np.argmin] on a one-dimensional array

    A left-to-right scan that keeps the first position of the smallest value
    seen so far; the empty array raises [ValueError]. *)

Definition Qltb (x y : Q) : bool := negb (Qle_bool y x).

Fixpoint argmin_from (best_i : nat) (best : Q) (i : nat) (l : list Q) : nat :=
  match l with
  | [] => best_i
  | x :: rest =>
      if Qltb x best then argmin_from i x (S i) rest
      else argmin_from best_i best (S i) rest
  end.

Definition argmin (l : list Q) : option nat :=
  match l with
  | [] => None
  | x :: rest => Some (argmin_from 0 x 1 rest)
  end.

(** ** The MySQL server as the connector sees it

    Tables of [db_setup.py]: [users(id AUTO_INCREMENT, name)],
    [face_encodings(id, user_id, encoding BLOB)] and
    [attendance(id, user_id, timestamp)].  Surrogate keys of the last two
    tables and the server-side timestamps are never read by the program and
    are left out; an attendance row is the [user_id] it records, in insertion
    order.

    [availability] is the server's answer to the statements still to come:
    [true] executes and commits the statement, [false] makes the connector
    raise [mysql.connector.Error] (lost connection, constraint violation, ...)
    with nothing committed.  An exhausted schedule answers every statement. *)

Record UserRow : Type := { user_id : Z; user_name : string }.

(** External collaborators: OpenCV ([cvtColor]), the [face_recognition]
    library ([face_locations], [face_encodings]; [distance k e] is its
    [np.linalg.norm(k - e)]) and [pickle].  [pickle.loads] returns the
    object or raises, on bytes that are no pickle of an encoding. *)
Class Collaborators : Type := {
  Image : Type;
  Box : Type;
  Encoding : Type;
  Blob : Type;
  cvtColor : Image -> Image;
  face_locations : Image -> list Box;
  face_encodings : Image -> list Box -> list Encoding;
  distance : Encoding -> Encoding -> Q;
  pickle_dumps : Encoding -> Blob;
  pickle_loads : Blob -> Outcome Encoding
}.

Section Model.

Context {ext : Collaborators}.

Record EncodingRow : Type := { enc_user_id : Z; enc_blob : Blob }.

Record Connection : Type := {
  users : list UserRow;
  face_encodings_table : list EncodingRow;
  attendance : list Z;
  users_auto_increment : positive;
  availability : list bool
}.

(** The server's answer to the next statement, and the connection after it. *)
Definition statement (c : Connection) : bool * Connection :=
  match availability c with
  | [] => (true, c)
  | b :: rest =>
      (b, {| users := users c;
             face_encodings_table := face_encodings_table c;
             attendance := attendance c;
             users_auto_increment := users_auto_increment c;
             availability := rest |})
  end.

(** ** db_operations.py: [DatabaseManager] *)

Record DatabaseManager : Type := { connection : option Connection }.

(** [connect]: [server] is what [mysql.connector.connect] finds, [None] when
    the server is unreachable; the error is printed and swallowed, leaving
    [self.connection] as it was. *)
Definition connect (server : option Connection) : Py DatabaseManager unit :=
  fun self =>
    match server with
    | Some c => (Return tt, {| connection := Some c |})
    | None => (Return tt, self)
    end.

Definition DatabaseManager_init (server : option Connection) : DatabaseManager :=
  snd (connect server {| connection := None |}).

(** [self.connection.cursor()] and the statement that follows, inside the
    method's [try]: on [None] the attribute access raises [AttributeError],
    which [except mysql.connector.Error] does not catch. *)
Definition add_user (name : string) : Py DatabaseManager (option Z) :=
  fun self =>
    match connection self with
    | None => (Raise AttributeError, self)
    | Some c =>
        let (ok, c') := statement c in
        if ok then
          let lastrowid := Z.pos (users_auto_increment c') in
          (Return (Some lastrowid),
           {| connection := Some
                {| users := users c' ++ [{| user_id := lastrowid; user_name := name |}];
                   face_encodings_table := face_encodings_table c';
                   attendance := attendance c';
                   users_auto_increment := Pos.succ (users_auto_increment c');
                   availability := availability c' |} |})
        else (Return None, {| connection := Some c' |})
    end.

Definition add_face_encoding (uid : Z) (face_encoding : Encoding)
  : Py DatabaseManager bool :=
  fun self =>
    match connection self with
    | None => (Raise AttributeError, self)
    | Some c =>
        let (ok, c') := statement c in
        if ok then
          let encoding_bytes := pickle_dumps face_encoding in
          (Return true,
           {| connection := Some
                {| users := users c';
                   face_encodings_table :=
                     face_encodings_table c'
                       ++ [{| enc_user_id := uid; enc_blob := encoding_bytes |}];
                   attendance := attendance c';
                   users_auto_increment := users_auto_increment c';
                   availability := availability c' |} |})
        else (Return false, {| connection := Some c' |})
    end.

(** A row of the [dictionary=True] cursor of [get_all_face_encodings], as
    fetched, and after its [encoding] field has been unpickled. *)
Record RawRow : Type := { raw_id : Z; raw_name : string; raw_encoding : Blob }.

Record FaceRow : Type := { row_id : Z; row_name : string; row_encoding : Encoding }.

(** [SELECT u.id, u.name, f.encoding FROM users u JOIN face_encodings f
    ON u.id = f.user_id].  The query has no [ORDER BY]: the order taken
    here (users first, then their descriptor rows) is one the server may
    choose; the properties of the loaded gallery are stated through
    lengths, membership and permutations, which hold for any order. *)
Definition select_faces (c : Connection) : list RawRow :=
  flat_map
    (fun u =>
       map (fun f => {| raw_id := user_id u; raw_name := user_name u;
                        raw_encoding := enc_blob f |})
           (filter (fun f => (enc_user_id f =? user_id u)%Z)
                   (face_encodings_table c)))
    (users c).

(** [for result in results: result['encoding'] = pickle.loads(...)]: the
    first [pickle.loads] that raises ends the loop with its exception. *)
Fixpoint unpickle_rows (results : list RawRow) : Outcome (list FaceRow) :=
  match results with
  | [] => Return []
  | result :: rest =>
      match pickle_loads (raw_encoding result) with
      | Return encoding =>
          match unpickle_rows rest with
          | Return rows =>
              Return ({| row_id := raw_id result; row_name := raw_name result;
                         row_encoding := encoding |} :: rows)
          | Raise e => Raise e
          end
      | Raise e => Raise e
      end
  end.

(** The exception of [pickle.loads] is raised inside the [try] and is not a
    [mysql.connector.Error]: it leaves the method. *)
Definition get_all_face_encodings : Py DatabaseManager (list FaceRow) :=
  fun self =>
    match connection self with
    | None => (Raise AttributeError, self)
    | Some c =>
        let (ok, c') := statement c in
        if ok then (unpickle_rows (select_faces c'), {| connection := Some c' |})
        else (Return [], {| connection := Some c' |})
    end.

Definition record_attendance (uid : Z) : Py DatabaseManager bool :=
  fun self =>
    match connection self with
    | None => (Raise AttributeError, self)
    | Some c =>
        let (ok, c') := statement c in
        if ok then
          (Return true,
           {| connection := Some
                {| users := users c';
                   face_encodings_table := face_encodings_table c';
                   attendance := attendance c' ++ [uid];
                   users_auto_increment := users_auto_increment c';
                   availability := availability c' |} |})
        else (Return false, {| connection := Some c' |})
    end.

(** ** The [face_recognition] library on top of [distance]

    [face_distance] maps the Euclidean norm over the known encodings (the
    empty array for an empty list); [compare_faces] is
    [list(face_distance(known, e) <= tolerance)]. *)

Definition face_distance (known : list Encoding) (e : Encoding) : list Q :=
  map (fun k => distance k e) known.

Definition compare_faces (known : list Encoding) (e : Encoding) (tol : Q)
  : list bool :=
  map (fun d => Qle_bool d tol) (face_distance known e).

(** ** face_recognition_module.py: [FaceRecognitionSystem] *)

Record FaceRecognitionSystem : Type := {
  db : DatabaseManager;
  known_face_encodings : list Encoding;
  known_face_names : list string;
  known_face_ids : list Z
}.

(** A call [self.db.m(...)] from a method of [FaceRecognitionSystem]. *)
Definition on_db {A : Type} (m : Py DatabaseManager A)
  : Py FaceRecognitionSystem A :=
  fun self =>
    let (o, d) := m (db self) in
    (o, {| db := d;
           known_face_encodings := known_face_encodings self;
           known_face_names := known_face_names self;
           known_face_ids := known_face_ids self |}).

Definition load_known_faces : Py FaceRecognitionSystem unit :=
  (face_data <- on_db get_all_face_encodings ;;
   self <- get ;;
   put {| db := db self;
          known_face_encodings := map row_encoding face_data;
          known_face_names := map row_name face_data;
          known_face_ids := map row_id face_data |})%py.

(** [FaceRecognitionSystem()]: an exception raised by the constructor leaves
    the caller without an object. *)
Definition FaceRecognitionSystem_init (server : option Connection)
  : Outcome FaceRecognitionSystem :=
  let self := {| db := DatabaseManager_init server;
                 known_face_encodings := [];
                 known_face_names := [];
                 known_face_ids := [] |} in
  match load_known_faces self with
  | (Return _, self') => Return self'
  | (Raise e, _) => Raise e
  end.

Definition no_face_message : string :=
  "No face detected in the image".
Definition multiple_faces_message : string :=
  "Multiple faces detected. Please provide an image with only one face".
Definition registered_message (name : string) : string :=
  ("User " ++ name ++ " registered successfully")%string.
Definition failed_message : string :=
  "Failed to register user".

(** The three [append] calls of [register_new_face]. *)
Definition append_known (face_encoding : Encoding) (name : string) (uid : Z)
  : Py FaceRecognitionSystem unit :=
  (self <- get ;;
   put {| db := db self;
          known_face_encodings := known_face_encodings self ++ [face_encoding];
          known_face_names := known_face_names self ++ [name];
          known_face_ids := known_face_ids self ++ [uid] |})%py.

(** [if user_id:] is false for [None] and for [0]. *)
Definition register_new_face (name : string) (face_image : Image)
  : Py FaceRecognitionSystem (bool * string) :=
  let rgb_image := cvtColor face_image in
  let locations := face_locations rgb_image in
  if (List.length locations =? 0)%nat then ret (false, no_face_message)
  else if (1 <? List.length locations)%nat then ret (false, multiple_faces_message)
  else
    (face_encoding <- index (face_encodings rgb_image locations) 0 ;;
     user_id <- on_db (add_user name) ;;
     match user_id with
     | Some uid =>
         if negb (uid =? 0)%Z then
           success <- on_db (add_face_encoding uid face_encoding) ;;
           if (success : bool) then
             append_known face_encoding name uid ;;;
             ret (true, registered_message name)
           else ret (false, failed_message)
         else ret (false, failed_message)
     | None => ret (false, failed_message)
     end)%py.

(** The literal of [compare_faces(..., tolerance=0.6)].  The double nearest
    to 0.6 lies below 6/10 and the next double lies above it, so a double is
    at most the literal exactly when it is at most 6/10. *)
Definition tolerance : Q := (6 # 10)%Q.

(** Body of the loop [for face_encoding in face_encodings] of
    [recognize_faces]: the name and id appended for one face. *)
Definition recognize_face (face_encoding : Encoding)
  : Py FaceRecognitionSystem (string * option Z) :=
  (self <- get ;;
   let matches :=
     compare_faces (known_face_encodings self) face_encoding tolerance in
   let face_distances :=
     face_distance (known_face_encodings self) face_encoding in
   if (0 <? List.length face_distances)%nat then
     match argmin face_distances with
     | None => raise ValueError
     | Some best_match_index =>
         is_match <- index matches best_match_index ;;
         if (is_match : bool) then
           name <- index (known_face_names self) best_match_index ;;
           uid <- index (known_face_ids self) best_match_index ;;
           on_db (record_attendance uid) ;;;
           ret (name, Some uid)
         else ret ("Unknown"%string, None)
     end
   else ret ("Unknown"%string, None))%py.

Fixpoint recognize_loop (encodings : list Encoding)
  (face_names : list string) (recognized_ids : list (option Z))
  : Py FaceRecognitionSystem (list string * list (option Z)) :=
  match encodings with
  | [] => ret (face_names, recognized_ids)
  | face_encoding :: rest =>
      (r <- recognize_face face_encoding ;;
       recognize_loop rest (face_names ++ [fst r]) (recognized_ids ++ [snd r]))%py
  end.

Definition recognize_faces (frame : Image)
  : Py FaceRecognitionSystem (list Box * list string * list (option Z)) :=
  let rgb_frame := cvtColor frame in
  let locations := face_locations rgb_frame in
  let encodings := face_encodings rgb_frame locations in
  (r <- recognize_loop encodings [] [] ;;
   ret (locations, fst r, snd r))%py.

(** ** app.py: one iteration of the webcam loop of [home_page]

    [confidence_threshold] is the value of the slider "Recognition
    Confidence"; the loop calls [recognize_faces(frame)] and never reads it. *)
Definition home_page_frame (confidence_threshold : Q) (frame : Image)
  : Py FaceRecognitionSystem (list Box * list string * list (option Z)) :=
  recognize_faces frame.

(** ** States of a running system *)

(** The objects a program can hold: built by the constructor, then used
    through any sequence of method calls (an exception leaves the object as
    the raising call left it). *)
Inductive reachable : FaceRecognitionSystem -> Prop :=
| reach_init server self :
    FaceRecognitionSystem_init server = Return self -> reachable self
| reach_load self :
    reachable self -> reachable (snd (load_known_faces self))
| reach_register self name face_image :
    reachable self -> reachable (snd (register_new_face name face_image self))
| reach_recognize self frame :
    reachable self -> reachable (snd (recognize_faces frame self)).

(** The three parallel lists have one length. *)
Definition parallel (self : FaceRecognitionSystem) : Prop :=
  List.length (known_face_names self) = List.length (known_face_encodings self) /\
  List.length (known_face_ids self) = List.length (known_face_encodings self).

Definition connected (self : FaceRecognitionSystem) : Prop :=
  connection (db self) <> None.

(** ** Vocabulary of the properties *)

(** [i] is the first position of the smallest value of [ds], and [d] is that
    value. *)
Definition first_minimum (ds : list Q) (i : nat) (d : Q) : Prop :=
  nth_error ds i = Some d /\
  (forall j dj, nth_error ds j = Some dj -> (d <= dj)%Q) /\
  (forall j dj, (j < i)%nat -> nth_error ds j = Some dj -> (d < dj)%Q).

Definition set_db (self : FaceRecognitionSystem) (d : DatabaseManager)
  : FaceRecognitionSystem :=
  {| db := d;
     known_face_encodings := known_face_encodings self;
     known_face_names := known_face_names self;
     known_face_ids := known_face_ids self |}.

(** The name and id [recognize_face] appends for a face, read off the
    gallery alone: the entry at the [argmin] position when its distance is
    within [tolerance], and [("Unknown", None)] otherwise. *)
Definition decision (self : FaceRecognitionSystem) (e : Encoding)
  : string * option Z :=
  let ds := face_distance (known_face_encodings self) e in
  match argmin ds with
  | Some b =>
      if Qle_bool (nth b ds 0%Q) tolerance then
        (nth b (known_face_names self) EmptyString,
         Some (nth b (known_face_ids self) 0%Z))
      else ("Unknown"%string, None)
  | None => ("Unknown"%string, None)
  end.

(** The ids among the returned [recognized_ids] that are not [None], in
    frame order: the arguments of the successive [record_attendance] calls. *)
Definition recognized (ids : list (option Z)) : list Z :=
  flat_map (fun o => match o with
                     | Some uid => [uid]
                     | None => []
                     end) ids.


(** The server's answer to the [n]-th statement from now. *)
Definition answer (n : nat) (c : Connection) : bool :=
  nth n (availability c) true.

Definition record_all (uids : list Z) (d : DatabaseManager) : DatabaseManager :=
  fold_left (fun d uid => snd (record_attendance uid d)) uids d.

(** The writes of [uids] that a server with schedule [avail] commits. *)
Fixpoint committed (avail : list bool) (uids : list Z) {struct uids} : list Z :=
  match uids with
  | [] => []
  | uid :: rest =>
      match avail with
      | [] => uid :: rest
      | true :: avail' => uid :: committed avail' rest
      | false :: avail' => committed avail' rest
      end
  end.

(** ** app.py: camera probing, the webcam loop and the registration form *)

(** A capture device as [cv2.VideoCapture(index)] presents it: [None] when
    [isOpened()] is false, otherwise the frames its successive [read()] calls
    return before [ret] becomes false. *)
Definition Capture : Type := option (list Image).

(** [for index in range(3)] of [check_camera_availability], over the indices
    still to try: the first index whose device opens and delivers a frame. *)
Fixpoint first_working_camera (VideoCapture : nat -> Capture)
  (indices : list nat) : option nat :=
  match indices with
  | [] => None
  | index :: rest =>
      match VideoCapture index with
      | Some (_ :: _) => Some index
      | Some [] => first_working_camera VideoCapture rest
      | None => first_working_camera VideoCapture rest
      end
  end.

Definition check_camera_availability (VideoCapture : nat -> Capture)
  : option nat :=
  first_working_camera VideoCapture (seq 0 3).

(** How the [while] loop of [home_page] ends: [cap.read()] fails, or an
    exception reaches [except Exception]. *)
Inductive LoopEnd : Type :=
| CaptureFailed
| ExceptionCaught (e : Exn).

(** The [while st.session_state.webcam_running] loop over the frames the
    device still delivers.  Each displayed frame is represented by the boxes
    and labels drawn on it, [zip(face_locations, face_names)]. *)
Fixpoint webcam_loop (confidence_threshold : Q) (stream : list Image)
  (self : FaceRecognitionSystem)
  : list (list (Box * string)) * LoopEnd * FaceRecognitionSystem :=
  match stream with
  | [] => ([], CaptureFailed, self)
  | frame :: rest =>
      match home_page_frame confidence_threshold frame self with
      | (Return (locations, face_names, _), self') =>
          let '(shown, ending, self'') :=
            webcam_loop confidence_threshold rest self' in
          (combine locations face_names :: shown, ending, self'')
      | (Raise e, self') => ([], ExceptionCaught e, self')
      end
  end.

(** Messages of [register_page]. *)
Inductive Notice : Type :=
| st_success (message : string)
| st_error (message : string).

(** [str(e)] for the exceptions the program can raise. *)
Definition str_exn (e : Exn) : string :=
  match e with
  | AttributeError => "'NoneType' object has no attribute 'cursor'"
  | IndexError => "list index out of range"
  | ValueError => "attempt to get argmin of an empty sequence"
  | OtherError text => text
  end.

(** The block "Process registration" of [register_page].  [uploaded_file]
    is [None] when nothing was uploaded or captured, and otherwise carries
    what reading it does: [cv2.imread] / [cv2.imdecode] return an image,
    return [None] when they cannot decode it, or raise (as [cv2.imdecode]
    does on an empty buffer); an empty [name] is falsy.  Every exception
    raised inside the [try] is caught by [except Exception]. *)
Definition process_registration (submit_button : bool) (name : string)
  (uploaded_file : option (Outcome (option Image)))
  (self : FaceRecognitionSystem) : list Notice * FaceRecognitionSystem :=
  match uploaded_file with
  | Some reading =>
      if submit_button && negb (name =? "")%string then
        match reading with
        | Raise e =>
            ([st_error ("Error during registration: " ++ str_exn e)%string],
             self)
        | Return None =>
            ([st_error "Failed to read image. Please try again."], self)
        | Return (Some img) =>
            match register_new_face name img self with
            | (Return (true, message), self') => ([st_success message], self')
            | (Return (false, message), self') => ([st_error message], self')
            | (Raise e, self') =>
                ([st_error ("Error during registration: " ++ str_exn e)%string],
                 self')
            end
        end
      else ([], self)
  | None => ([], self)
  end.

(** ** Vocabulary of the store properties *)

(** The tables of [c'] extend those of [c]: no row removed or changed. *)
Definition store_grows (c c' : Connection) : Prop :=
  (exists us, users c' = users c ++ us) /\
  (exists fs, face_encodings_table c' = face_encodings_table c ++ fs) /\
  (exists ats, attendance c' = attendance c ++ ats) /\
  (users_auto_increment c <= users_auto_increment c')%positive.

(** Every id in use is below the next [AUTO_INCREMENT] value of [users]. *)
Definition fresh_ids (c : Connection) : Prop :=
  (forall u, In u (users c) ->
             (user_id u < Z.pos (users_auto_increment c))%Z) /\
  (forall f, In f (face_encodings_table c) ->
             (enc_user_id f < Z.pos (users_auto_increment c))%Z).

(** The entries of a gallery, position by position. *)
Fixpoint gallery_rows_of (ids : list Z) (names : list string)
  (encs : list Encoding) : list FaceRow :=
  match ids, names, encs with
  | uid :: ids', name :: names', enc :: encs' =>
      {| row_id := uid; row_name := name; row_encoding := enc |}
        :: gallery_rows_of ids' names' encs'
  | _, _, _ => []
  end.

Definition gallery_rows (self : FaceRecognitionSystem) : list FaceRow :=
  gallery_rows_of (known_face_ids self) (known_face_names self)
                  (known_face_encodings self).

(** The gallery of [self] holds, in some order, the rows a load from [c]
    gives: every fetched row unpickles, and the entries of the gallery are
    those rows up to order. *)
Definition in_sync (self : FaceRecognitionSystem) (c : Connection) : Prop :=
  parallel self /\
  exists rows,
    unpickle_rows (select_faces c) = Return rows /\
    Permutation (gallery_rows self) rows.

(** Every gallery entry of [self] has its identity row and a descriptor row
    in [c]. *)
Definition backed (self : FaceRecognitionSystem) (c : Connection) : Prop :=
  forall i name uid enc,
    nth_error (known_face_names self) i = Some name ->
    nth_error (known_face_ids self) i = Some uid ->
    nth_error (known_face_encodings self) i = Some enc ->
    In {| user_id := uid; user_name := name |} (users c) /\
    exists blob,
      In {| enc_user_id := uid; enc_blob := blob |} (face_encodings_table c) /\
      (pickle_loads blob = Return enc \/ blob = pickle_dumps enc).

(** The names and ids [recognize_faces] returns for a frame (empty when it
    raises). *)
Definition labels_of (self : FaceRecognitionSystem) (frame : Image)
  : list string * list (option Z) :=
  match fst (recognize_faces frame self) with
  | Return (_, names, ids) => (names, ids)
  | Raise _ => ([], [])
  end.

(** Between [d] and [d'] the connection was kept as it was (held or not) and
    its store only grew. *)
Definition db_grows (d d' : DatabaseManager) : Prop :=
  match connection d, connection d' with
  | Some c, Some c' => store_grows c c'
  | None, None => True
  | _, _ => False
  end.

(** Between [d] and [d'] at most [n] attendance rows were added and nothing
    else in the store changed. *)
Definition attendance_added (n : nat) (d d' : DatabaseManager) : Prop :=
  match connection d, connection d' with
  | Some c, Some c' =>
      users c' = users c /\
      face_encodings_table c' = face_encodings_table c /\
      users_auto_increment c' = users_auto_increment c /\
      exists ats, attendance c' = attendance c ++ ats /\
                  (List.length ats <= n)%nat
  | None, None => True
  | _, _ => False
  end.

End Model.

(** ** A concrete world for running the model

    Descriptors of dimension one, where the Euclidean norm of a difference is
    its absolute value; a picture is the list of the faces in it, each with
    its bounding box [(top, right, bottom, left)].  A blob is the number it
    pickles, and a negative blob stands for bytes that are no pickle. *)

Definition demo : Collaborators :=
  {| Image := list ((Z * Z * Z * Z) * Q);
     Box := Z * Z * Z * Z;
     Encoding := Q;
     Blob := Q;
     cvtColor := fun img => img;
     face_locations := fun img => map fst img;
     face_encodings := fun img _ => map snd img;
     distance := fun k e => Qabs (k - e);
     pickle_dumps := fun e => e;
     pickle_loads := fun b => if Qle_bool 0 b then Return b
                              else Raise (OtherError "invalid load key") |}.

Definition demo_box : @Box demo := (0, 10, 10, 0)%Z.

Definition demo_server (avail : list bool) : @Connection demo :=
  {| users := [ {| user_id := 1; user_name := "A" |};
                {| user_id := 2; user_name := "B" |} ];
     face_encodings_table :=
       [ @Build_EncodingRow demo 1 (1 # 10)%Q;
         @Build_EncodingRow demo 2 (5 # 10)%Q ];
     attendance := [];
     users_auto_increment := 3;
     availability := avail |}.

(** Gallery [A] (descriptor 0.1) and [B] (descriptor 0.5); a probe with
    descriptor 0 is at distance 0.1 from [A] and 0.5 from [B]. *)
Definition demo_system (avail : list bool) : @FaceRecognitionSystem demo :=
  {| db := {| connection := Some (demo_server avail) |};
     known_face_encodings := [(1 # 10)%Q; (5 # 10)%Q];
     known_face_names := ["A"%string; "B"%string];
     known_face_ids := [1%Z; 2%Z] |}.

Definition probe_frame : @Image demo := [(demo_box, 0%Q)].


Definition empty_frame : @Image demo := [].

Definition two_faces_frame : @Image demo := [(demo_box, 0%Q); (demo_box, 2%Q)].

(** A gallery holding only [B]. *)
Definition only_b_system : @FaceRecognitionSystem demo :=
  {| db := {| connection := Some (demo_server []) |};
     known_face_encodings := [(5 # 10)%Q];
     known_face_names := ["B"%string];
     known_face_ids := [2%Z] |}.

(** A system started on an empty database, and the same system after one
    person was enrolled under the name "Unknown". *)
Definition fresh_server : @Connection demo :=
  {| users := [];
     face_encodings_table := [];
     attendance := [];
     users_auto_increment := 1;
     availability := [] |}.

Definition fresh_system : @FaceRecognitionSystem demo :=
  {| db := {| connection := Some fresh_server |};
     known_face_encodings := [];
     known_face_names := [];
     known_face_ids := [] |}.

Definition unknown_named_system : @FaceRecognitionSystem demo :=
  snd (register_new_face "Unknown" probe_frame fresh_system).

(** A store with one descriptor row that does not unpickle, on a server that
    refuses the first statement and answers the following ones; and the
    system the constructor builds on it (its query refused, it starts with
    an empty gallery). *)
Definition corrupt_server (avail : list bool) : @Connection demo :=
  {| users := [ {| user_id := 1; user_name := "A" |} ];
     face_encodings_table := [ @Build_EncodingRow demo 1 (-1)%Q ];
     attendance := [];
     users_auto_increment := 2;
     availability := avail |}.

Definition corrupt_system : @FaceRecognitionSystem demo :=
  {| db := {| connection := Some (corrupt_server []) |};
     known_face_encodings := [];
     known_face_names := [];
     known_face_ids := [] |}.

(** Device 0 opens but delivers no frame, device 1 delivers the probe twice,
    no other device opens. *)
Definition demo_cameras (index : nat) : @Capture demo :=
  match index with
  | 0%nat => Some []
  | 1%nat => Some [probe_frame; probe_frame]
  | _ => None
  end.

(** Only a fourth device, at index 3, works. *)
Definition far_camera (index : nat) : @Capture demo :=
  match index with
  | 3%nat => Some [probe_frame]
  | _ => None
  end.

(** * Properties *)

(** ** Order of the rationals, as the booleans of the model see it *)

Lemma Qltb_true (x y : Q) : Qltb x y = true -> (x < y)%Q.
Proof.
  unfold Qltb. intros H. apply negb_true_iff in H.
  apply Qnot_le_lt. intros Hle. apply Qle_bool_iff in Hle. congruence.
Qed.

Lemma Qltb_false (x y : Q) : Qltb x y = false -> (y <= x)%Q.
Proof.
  unfold Qltb. intros H. apply negb_false_iff in H.
  now apply Qle_bool_iff.
Qed.

Lemma Qle_bool_false (x y : Q) : Qle_bool x y = false <-> (y < x)%Q.
Proof.
  split; intros H.
  - apply Qnot_le_lt. intros Hle. apply Qle_bool_iff in Hle. congruence.
  - destruct (Qle_bool x y) eqn:E; [|reflexivity].
    apply Qle_bool_iff in E. exfalso. exact (Qlt_not_le _ _ H E).
Qed.

(** ** [argmin] returns the first position of the minimum *)

Lemma nth_error_snoc_last {A : Type} (pre : list A) (x : A) :
  nth_error (pre ++ [x]) (List.length pre) = Some x.
Proof.
  rewrite nth_error_app2 by lia. now rewrite Nat.sub_diag.
Qed.

Lemma nth_error_snoc_inv {A : Type} (pre : list A) (x y : A) (j : nat) :
  nth_error (pre ++ [x]) j = Some y ->
  (j < List.length pre /\ nth_error pre j = Some y)%nat \/
  (j = List.length pre /\ y = x).
Proof.
  intros H. destruct (Nat.lt_ge_cases j (List.length pre)) as [Hlt|Hge].
  - left. split; [exact Hlt|]. now rewrite nth_error_app1 in H.
  - right. rewrite nth_error_app2 in H by exact Hge.
    destruct (j - List.length pre)%nat as [|k] eqn:E.
    + simpl in H. split; [lia|congruence].
    + simpl in H. destruct k; discriminate.
Qed.

Lemma argmin_from_spec (rest pre : list Q) (best_i : nat) (best : Q) :
  first_minimum pre best_i best ->
  exists d,
    first_minimum (pre ++ rest)
      (argmin_from best_i best (List.length pre) rest) d.
Proof.
  revert pre best_i best.
  induction rest as [|x rest IH]; intros pre best_i best (Hat & Hmin & Hfirst).
  - exists best. rewrite app_nil_r. simpl. now repeat split.
  - simpl. replace (pre ++ x :: rest) with ((pre ++ [x]) ++ rest)
      by (rewrite <- app_assoc; reflexivity).
    replace (S (List.length pre)) with (List.length (pre ++ [x]))
      by (rewrite length_app; simpl; lia).
    destruct (Qltb x best) eqn:E.
    + apply Qltb_true in E.
      apply IH. repeat split.
      * apply nth_error_snoc_last.
      * intros j dj Hj. apply nth_error_snoc_inv in Hj.
        destruct Hj as [[_ Hj]|[_ ->]]; [|apply Qle_refl].
        apply Qlt_le_weak. eapply Qlt_le_trans; [exact E|]. eapply Hmin; eauto.
      * intros j dj Hlt Hj. apply nth_error_snoc_inv in Hj.
        destruct Hj as [[_ Hj]|[-> _]]; [|lia].
        eapply Qlt_le_trans; [exact E|]. eapply Hmin; eauto.
    + apply Qltb_false in E.
      assert (Hbi : (best_i < List.length pre)%nat)
        by (apply nth_error_Some; congruence).
      apply IH. repeat split.
      * now rewrite nth_error_app1.
      * intros j dj Hj. apply nth_error_snoc_inv in Hj.
        destruct Hj as [[_ Hj]|[_ ->]]; [eapply Hmin; eauto|exact E].
      * intros j dj Hlt Hj. apply nth_error_snoc_inv in Hj.
        destruct Hj as [[_ Hj]|[-> _]]; [eapply Hfirst; eauto|lia].
Qed.

Lemma argmin_spec (ds : list Q) :
  ds <> [] -> exists i d, argmin ds = Some i /\ first_minimum ds i d.
Proof.
  destruct ds as [|x rest]; [congruence|]. intros _.
  destruct (argmin_from_spec rest [x] 0 x) as [d Hd].
  - repeat split.
    + intros [|[|j]] dj Hj; simpl in Hj; try discriminate.
      injection Hj as <-. apply Qle_refl.
    + intros j dj Hlt. lia.
  - exists (argmin_from 0 x 1 rest), d. split; [reflexivity|exact Hd].
Qed.

Lemma first_minimum_bound (ds : list Q) (i : nat) (d : Q) :
  first_minimum ds i d -> (i < List.length ds)%nat.
Proof.
  intros (Hat & _). apply nth_error_Some. congruence.
Qed.

(** The first position of the minimum is unique. *)
Lemma first_minimum_unique (ds : list Q) (i j : nat) (d d' : Q) :
  first_minimum ds i d -> first_minimum ds j d' -> i = j.
Proof.
  intros (Hi & Hmin & Hfirst) (Hj & Hmin' & Hfirst').
  destruct (Nat.lt_trichotomy i j) as [Hlt|[Heq|Hgt]]; [|exact Heq|].
  - exfalso. apply (Qlt_not_le _ _ (Hfirst' _ _ Hlt Hi)). eapply Hmin; eauto.
  - exfalso. apply (Qlt_not_le _ _ (Hfirst _ _ Hgt Hj)). eapply Hmin'; eauto.
Qed.

Section Properties.

Context {ext : Collaborators}.

(** ** The server's schedule *)

Lemma statement_answer (c : Connection) :
  fst (statement c) = answer 0 c /\
  users (snd (statement c)) = users c /\
  face_encodings_table (snd (statement c)) = face_encodings_table c /\
  attendance (snd (statement c)) = attendance c /\
  users_auto_increment (snd (statement c)) = users_auto_increment c /\
  (forall n, answer n (snd (statement c)) = answer (S n) c).
Proof.
  unfold statement, answer. destruct (availability c) as [|b rest] eqn:E; simpl.
  - rewrite E. repeat split. intros [|n]; reflexivity.
  - repeat split.
Qed.

(** ** Recognition of one face *)

Lemma record_attendance_connected (uid : Z) (d : DatabaseManager) (c : Connection) :
  connection d = Some c ->
  exists ok c',
    record_attendance uid d = (Return ok, {| connection := Some c' |}).
Proof.
  intros H. unfold record_attendance. rewrite H.
  destruct (statement c) as [[|] c1]; eauto.
Qed.

Lemma recognize_face_decision (self : FaceRecognitionSystem) (e : Encoding) :
  parallel self -> connected self ->
  recognize_face e self =
    (Return (decision self e),
     match snd (decision self e) with
     | Some uid => set_db self (snd (record_attendance uid (db self)))
     | None => self
     end).
Proof.
  intros [Hn Hi] Hc.
  unfold recognize_face, decision, bind, get. cbn beta iota.
  set (ds := face_distance (known_face_encodings self) e).
  destruct (argmin ds) as [b|] eqn:Eb.
  - assert (Hne : ds <> []) by (intros E; rewrite E in Eb; discriminate).
    destruct (argmin_spec ds Hne) as (i & d & Earg & Hmin).
    rewrite Eb in Earg. injection Earg as <-.
    pose proof (first_minimum_bound _ _ _ Hmin) as Hb.
    assert (Hlen : List.length ds = List.length (known_face_encodings self))
      by (unfold ds, face_distance; apply length_map).
    replace (0 <? List.length ds)%nat with true
      by (symmetry; apply Nat.ltb_lt; lia).
    unfold index, compare_faces. fold ds.
    rewrite nth_error_map, (nth_error_nth' ds 0%Q Hb). cbn.
    destruct (Qle_bool (nth b ds 0%Q) tolerance); [|reflexivity].
    rewrite (nth_error_nth' (known_face_names self) EmptyString) by lia.
    rewrite (nth_error_nth' (known_face_ids self) 0%Z) by lia.
    cbn. unfold on_db.
    destruct (connection (db self)) as [c|] eqn:Ec; [|now elim Hc].
    destruct (record_attendance_connected (nth b (known_face_ids self) 0%Z)
                (db self) c Ec) as (ok & c' & ->).
    reflexivity.
  - destruct ds; [reflexivity|discriminate].
Qed.

Lemma parallel_set_db (self : FaceRecognitionSystem) (d : DatabaseManager) :
  parallel self -> parallel (set_db self d).
Proof. intros H; exact H. Qed.

Lemma record_attendance_keeps_connection (uid : Z) (d : DatabaseManager) :
  connection d <> None -> connection (snd (record_attendance uid d)) <> None.
Proof.
  intros H. destruct (connection d) as [c|] eqn:E; [|congruence].
  destruct (record_attendance_connected uid d c E) as (ok & c' & ->).
  discriminate.
Qed.

Lemma set_db_db (self : FaceRecognitionSystem) : set_db self (db self) = self.
Proof. destruct self; reflexivity. Qed.

(** ** The loop over the faces of a frame *)

Lemma recognize_loop_spec (es : list Encoding) :
  forall (self : FaceRecognitionSystem) names ids,
    parallel self -> connected self ->
    recognize_loop es names ids self =
      (Return (names ++ map (fun e => fst (decision self e)) es,
               ids ++ map (fun e => snd (decision self e)) es),
       set_db self
         (record_all (recognized (map (fun e => snd (decision self e)) es))
                     (db self))).
Proof.
  induction es as [|e es IH]; intros self names ids Hp Hc.
  - cbn. rewrite !app_nil_r. now rewrite set_db_db.
  - cbn [recognize_loop]. unfold bind at 1.
    rewrite recognize_face_decision by assumption.
    destruct (decision self e) as [name [uid|]] eqn:Ed; cbn [fst snd].
    + rewrite IH.
      * cbn [map recognized flat_map app]. rewrite Ed. cbn [fst snd].
        rewrite <- !app_assoc. cbn [app]. unfold record_all. cbn [fold_left app].
        reflexivity.
      * now apply parallel_set_db.
      * unfold connected. cbn. now apply record_attendance_keeps_connection.
    + rewrite IH by assumption.
      cbn [map recognized flat_map app]. rewrite Ed. cbn [fst snd].
      rewrite <- !app_assoc. reflexivity.
Qed.

(** ** What the attendance writes of a frame leave in the store *)

Lemma committed_all (avail : list bool) (uids : list Z) :
  forallb (fun b => b) avail = true -> committed avail uids = uids.
Proof.
  revert avail. induction uids as [|uid rest IH]; intros avail H; [reflexivity|].
  destruct avail as [|[|] avail']; simpl in *; try reflexivity; try discriminate.
  now rewrite IH.
Qed.

Lemma record_attendance_effect (uid : Z) (c : Connection) :
  exists c',
    snd (record_attendance uid {| connection := Some c |})
      = {| connection := Some c' |} /\
    attendance c' = attendance c ++ (if answer 0 c then [uid] else []) /\
    users c' = users c /\
    face_encodings_table c' = face_encodings_table c /\
    users_auto_increment c' = users_auto_increment c /\
    availability c' = tl (availability c).
Proof.
  unfold record_attendance, statement, answer. cbn [connection].
  destruct (availability c) as [|[|] avail'] eqn:Ea; cbn.
  - eexists; split; [reflexivity|]. cbn. rewrite Ea. now repeat split.
  - eexists; split; [reflexivity|]. cbn. now repeat split.
  - eexists; split; [reflexivity|]. cbn. rewrite app_nil_r. now repeat split.
Qed.

Lemma record_all_attendance (uids : list Z) :
  forall c : Connection,
  exists c',
    record_all uids {| connection := Some c |} = {| connection := Some c' |} /\
    attendance c' = attendance c ++ committed (availability c) uids /\
    users c' = users c /\
    face_encodings_table c' = face_encodings_table c /\
    users_auto_increment c' = users_auto_increment c.
Proof.
  induction uids as [|uid rest IH]; intros c.
  - exists c. cbn. rewrite app_nil_r. repeat split.
  - unfold record_all. cbn [fold_left]. fold (record_all rest).
    destruct (record_attendance_effect uid c)
      as (c1 & -> & Hatt1 & Hu1 & Hf1 & Hi1 & Ha1).
    destruct (IH c1) as (c' & E & Hatt & Hu & Hf & Hi).
    exists c'. split; [exact E|]. rewrite Hatt, Hu, Hf, Hi, Hatt1, Hu1, Hf1, Hi1, Ha1.
    repeat split. rewrite <- app_assoc. f_equal.
    unfold answer. destruct (availability c) as [|[|] avail']; cbn.
    + destruct rest; reflexivity.
    + reflexivity.
    + reflexivity.
Qed.

(** ** [recognize_faces] on a whole frame *)

Lemma recognize_faces_spec (self : FaceRecognitionSystem) (c : Connection)
  (frame : Image) :
  parallel self -> connection (db self) = Some c ->
  let locations := face_locations (cvtColor frame) in
  let es := face_encodings (cvtColor frame) locations in
  let ids := map (fun e => snd (decision self e)) es in
  exists c',
    recognize_faces frame self =
      (Return (locations, map (fun e => fst (decision self e)) es, ids),
       set_db self {| connection := Some c' |}) /\
    attendance c' = attendance c ++ committed (availability c) (recognized ids) /\
    users c' = users c /\
    face_encodings_table c' = face_encodings_table c.
Proof.
  intros Hp Hc locations es ids.
  assert (Hconn : connected self) by (unfold connected; congruence).
  destruct (record_all_attendance (recognized ids) c)
    as (c' & E & Hatt & Hu & Hf & _).
  exists c'. split; [|now repeat split].
  unfold recognize_faces, bind. fold locations. fold es.
  rewrite recognize_loop_spec by assumption. cbn [fst snd app].
  fold ids. unfold ret.
  replace (db self) with {| connection := Some c |}
    by (destruct (db self); cbn in Hc; now subst).
  now rewrite E.
Qed.

Lemma decision_first_minimum (self : FaceRecognitionSystem) (e : Encoding) :
  parallel self -> known_face_encodings self <> [] ->
  exists b d name uid,
    argmin (face_distance (known_face_encodings self) e) = Some b /\
    first_minimum (face_distance (known_face_encodings self) e) b d /\
    nth_error (known_face_encodings self) b <> None /\
    nth_error (known_face_names self) b = Some name /\
    nth_error (known_face_ids self) b = Some uid /\
    ((d <= tolerance)%Q -> decision self e = (name, Some uid)) /\
    ((tolerance < d)%Q -> decision self e = ("Unknown"%string, None)).
Proof.
  intros [Hn Hi] Hne.
  set (ds := face_distance (known_face_encodings self) e).
  assert (Hlen : List.length ds = List.length (known_face_encodings self))
    by (unfold ds, face_distance; apply length_map).
  assert (Hds : ds <> []).
  { intros E. apply Hne. apply length_zero_iff_nil.
    rewrite <- Hlen, E. reflexivity. }
  destruct (argmin_spec ds Hds) as (b & d & Earg & Hmin).
  pose proof (first_minimum_bound _ _ _ Hmin) as Hb.
  exists b, d, (nth b (known_face_names self) EmptyString),
    (nth b (known_face_ids self) 0%Z).
  split; [exact Earg|]. split; [exact Hmin|].
  split; [apply nth_error_Some; lia|].
  split; [apply nth_error_nth'; lia|].
  split; [apply nth_error_nth'; lia|].
  destruct Hmin as (Hat & _).
  assert (Hd : nth b ds 0%Q = d).
  { rewrite (nth_error_nth' ds 0%Q Hb) in Hat. congruence. }
  unfold decision. fold ds. rewrite Earg, Hd. split; intros H.
  - apply Qle_bool_iff in H. now rewrite H.
  - apply Qle_bool_false in H. now rewrite H.
Qed.

Lemma nth_error_map_inv {A B : Type} (f : A -> B) (l : list A) (i : nat) (y : B) :
  nth_error (map f l) i = Some y -> exists x, nth_error l i = Some x /\ y = f x.
Proof.
  rewrite nth_error_map. destruct (nth_error l i) as [x|]; [|discriminate].
  intros [= <-]. now exists x.
Qed.

Lemma decision_cases (self : FaceRecognitionSystem) (e : Encoding) :
  parallel self ->
  decision self e = ("Unknown"%string, None) \/
  exists b name uid,
    nth_error (known_face_names self) b = Some name /\
    nth_error (known_face_ids self) b = Some uid /\
    decision self e = (name, Some uid).
Proof.
  intros Hp.
  destruct (known_face_encodings self) as [|k ks] eqn:Ek.
  - left. unfold decision. rewrite Ek. reflexivity.
  - destruct (decision_first_minimum self e Hp) as
      (b & d & name & uid & _ & _ & _ & Hname & Hid & Hle & Hgt);
      [congruence|].
    destruct (Qlt_le_dec tolerance d) as [H|H].
    + left. now apply Hgt.
    + right. exists b, name, uid. auto.
Qed.




(** ** Recognition: nearest entry, tolerance, attendance *)

Lemma committed_one (avail : list bool) (uid : Z) :
  committed avail [uid] = if nth 0 avail true then [uid] else [].
Proof. destruct avail as [|[|] avail']; reflexivity. Qed.

(** C1, amended.  On a system whose three lists are parallel, that holds a
    connection and a non-empty gallery, [recognize_faces] returns a name
    list and an id list with one element per detected face.  For every
    detected face the entry at the first position of the minimum distance is
    selected; when that distance is within the tolerance the face carries
    that entry's name and id, and otherwise it carries "Unknown" and [None].
    One attendance write is issued per matched face, in frame order: the
    attendance table grows by exactly the writes the server commits, taken
    in order from the ids returned, which is one record per matched face
    when the server answers every statement.  For a frame with one face
    that matches, the table grows by exactly one record for the matched
    identity when the server commits the write, and by none when it refuses
    it. *)
Theorem recognize_selects_nearest_within_tolerance
  (self : FaceRecognitionSystem) (c : Connection) (frame : Image) :
  parallel self ->
  connection (db self) = Some c ->
  known_face_encodings self <> [] ->
  exists names ids c',
    recognize_faces frame self =
      (Return (face_locations (cvtColor frame), names, ids),
       set_db self {| connection := Some c' |}) /\
    List.length names =
      List.length (face_encodings (cvtColor frame)
                     (face_locations (cvtColor frame))) /\
    List.length ids =
      List.length (face_encodings (cvtColor frame)
                     (face_locations (cvtColor frame))) /\
    (forall i e,
        nth_error (face_encodings (cvtColor frame)
                     (face_locations (cvtColor frame))) i = Some e ->
        exists b k d name uid,
          nth_error (known_face_encodings self) b = Some k /\
          d = distance k e /\
          first_minimum (face_distance (known_face_encodings self) e) b d /\
          nth_error (known_face_names self) b = Some name /\
          nth_error (known_face_ids self) b = Some uid /\
          ((d <= tolerance)%Q ->
           nth_error names i = Some name /\
           nth_error ids i = Some (Some uid)) /\
          ((tolerance < d)%Q ->
           nth_error names i = Some "Unknown"%string /\
           nth_error ids i = Some None)) /\
    users c' = users c /\
    face_encodings_table c' = face_encodings_table c /\
    attendance c' =
      attendance c ++ committed (availability c) (recognized ids) /\
    (forallb (fun b => b) (availability c) = true ->
     attendance c' = attendance c ++ recognized ids) /\
    (forall e b d uid,
        face_encodings (cvtColor frame) (face_locations (cvtColor frame)) = [e] ->
        first_minimum (face_distance (known_face_encodings self) e) b d ->
        nth_error (known_face_ids self) b = Some uid ->
        (d <= tolerance)%Q ->
        ids = [Some uid] /\
        attendance c' =
          attendance c ++ (if answer 0 c then [uid] else [])).
Proof.
  intros Hp Hc Hne.
  destruct (recognize_faces_spec self c frame Hp Hc)
    as (c' & E & Hatt & Hu & Hf).
  cbv zeta in E, Hatt.
  eexists _, _, c'. split; [exact E|].
  split; [apply length_map|]. split; [apply length_map|].
  split; [|split; [exact Hu|split; [exact Hf|split; [exact Hatt|split]]]].
  - intros i e Hi.
    destruct (decision_first_minimum self e Hp Hne) as
      (b & d & name & uid & _ & Hmin & _ & Hname & Hid & Hle & Hgt).
    destruct (nth_error_map_inv _ _ _ _ (proj1 Hmin)) as (k & Hk & Hd).
    exists b, k, d, name, uid.
    split; [exact Hk|]. split; [exact Hd|].
    split; [exact Hmin|]. split; [exact Hname|]. split; [exact Hid|].
    split; intros H; rewrite !nth_error_map, Hi; cbn.
    + now rewrite (Hle H).
    + now rewrite (Hgt H).
  - intros Hall. rewrite Hatt. now rewrite committed_all.
  - intros e b d uid Hes Hmin Hid Hle.
    destruct (decision_first_minimum self e Hp Hne) as
      (b' & d' & name' & uid' & _ & Hmin' & _ & _ & Hid' & Hle' & _).
    assert (b' = b) by (eapply first_minimum_unique; eauto). subst b'.
    assert (d' = d) by (destruct Hmin as (H1 & _), Hmin' as (H2 & _); congruence).
    subst d'. rewrite Hid in Hid'. injection Hid' as <-.
    rewrite Hatt, Hes. cbn [map]. rewrite (Hle' Hle).
    cbn [snd]. unfold recognized. cbn [flat_map app].
    split; [reflexivity|]. now rewrite committed_one.
Qed.


(** C10, amended.  On a system whose three lists are parallel and that holds
    a connection, [recognize_faces] returns a name list and an id list with
    one element per detected face encoding; an id [None] comes with the name
    "Unknown"; an id that is not [None] comes with the name of the gallery
    entry that carries this id; and a name "Unknown" comes with the id [None]
    provided no gallery entry is named "Unknown". *)
Theorem recognize_output_shape
  (self : FaceRecognitionSystem) (c : Connection) (frame : Image) :
  parallel self ->
  connection (db self) = Some c ->
  exists names ids self',
    recognize_faces frame self =
      (Return (face_locations (cvtColor frame), names, ids), self') /\
    List.length names =
      List.length (face_encodings (cvtColor frame)
                     (face_locations (cvtColor frame))) /\
    List.length ids = List.length names /\
    (forall i, nth_error ids i = Some None ->
               nth_error names i = Some "Unknown"%string) /\
    (forall i uid,
        nth_error ids i = Some (Some uid) ->
        exists b name,
          nth_error names i = Some name /\
          nth_error (known_face_names self) b = Some name /\
          nth_error (known_face_ids self) b = Some uid) /\
    (~ In "Unknown"%string (known_face_names self) ->
     forall i, nth_error names i = Some "Unknown"%string ->
               nth_error ids i = Some None).
Proof.
  intros Hp Hc.
  destruct (recognize_faces_spec self c frame Hp Hc) as (c' & E & _).
  cbv zeta in E.
  eexists _, _, _. split; [exact E|].
  split; [apply length_map|]. split; [now rewrite !length_map|].
  split; [|split].
  - intros i Hi. apply nth_error_map_inv in Hi. destruct Hi as (e & He & Hd).
    rewrite nth_error_map, He. cbn.
    destruct (decision_cases self e Hp) as [->|(b & name & uid & _ & _ & Ed)];
      [reflexivity|].
    rewrite Ed in Hd. discriminate.
  - intros i uid Hi. apply nth_error_map_inv in Hi. destruct Hi as (e & He & Hd).
    destruct (decision_cases self e Hp) as [Ed|(b & name & uid' & Hn & Hu & Ed)];
      rewrite Ed in Hd; [discriminate|].
    injection Hd as ->. exists b, name.
    rewrite nth_error_map, He. cbn [option_map]. rewrite Ed. auto.
  - intros Hno i Hi. apply nth_error_map_inv in Hi. destruct Hi as (e & He & Hd).
    rewrite nth_error_map, He. cbn.
    destruct (decision_cases self e Hp) as [->|(b & name & uid & Hn & _ & Ed)];
      [reflexivity|].
    rewrite Ed in Hd. cbn in Hd. subst name.
    exfalso. apply Hno. eapply nth_error_In. exact Hn.
Qed.

(** The webcam loop passes no tolerance: whatever the slider shows, the frame
    is matched by [recognize_faces] with its own literal. *)
Lemma home_page_frame_ignores_slider (t t' : Q) (frame : Image)
  (self : FaceRecognitionSystem) :
  home_page_frame t frame self = home_page_frame t' frame self.
Proof. reflexivity. Qed.

(** ** Enrollment *)

Lemma add_user_effect (name : string) (c : Connection) :
  exists c1,
    add_user name {| connection := Some c |} =
      (Return (if answer 0 c then Some (Z.pos (users_auto_increment c)) else None),
       {| connection := Some c1 |}) /\
    users c1 =
      users c ++ (if answer 0 c
                  then [{| user_id := Z.pos (users_auto_increment c);
                           user_name := name |}]
                  else []) /\
    face_encodings_table c1 = face_encodings_table c /\
    attendance c1 = attendance c /\
    (forall n, answer n c1 = answer (S n) c).
Proof.
  unfold add_user, statement, answer. cbn [connection].
  destruct (availability c) as [|[|] avail'] eqn:Ea; cbn.
  - eexists; split; [reflexivity|]. cbn. rewrite Ea.
    repeat split. intros [|n]; reflexivity.
  - eexists; split; [reflexivity|]. cbn. now repeat split.
  - eexists; split; [reflexivity|]. cbn. rewrite app_nil_r. now repeat split.
Qed.

Lemma add_face_encoding_effect (uid : Z) (enc : Encoding) (c : Connection) :
  exists c1,
    add_face_encoding uid enc {| connection := Some c |} =
      (Return (answer 0 c), {| connection := Some c1 |}) /\
    users c1 = users c /\
    face_encodings_table c1 =
      face_encodings_table c ++
        (if answer 0 c
         then [{| enc_user_id := uid; enc_blob := pickle_dumps enc |}]
         else []) /\
    attendance c1 = attendance c.
Proof.
  unfold add_face_encoding, statement, answer. cbn [connection].
  destruct (availability c) as [|[|] avail'] eqn:Ea; cbn.
  - eexists; split; [reflexivity|]. cbn. now repeat split.
  - eexists; split; [reflexivity|]. cbn. now repeat split.
  - eexists; split; [reflexivity|]. cbn. rewrite app_nil_r. now repeat split.
Qed.

(** The path of [register_new_face] past the two face-count tests, for an
    image with one face and a system that holds a connection. *)
Lemma register_single_face (self : FaceRecognitionSystem) (c : Connection)
  (name : string) (face_image : Image) (loc : Box) (enc : Encoding) :
  connection (db self) = Some c ->
  face_locations (cvtColor face_image) = [loc] ->
  face_encodings (cvtColor face_image) [loc] = [enc] ->
  let uid := Z.pos (users_auto_increment c) in
  exists c',
    register_new_face name face_image self =
      (if answer 0 c && answer 1 c
       then (Return (true, registered_message name),
             {| db := {| connection := Some c' |};
                known_face_encodings := known_face_encodings self ++ [enc];
                known_face_names := known_face_names self ++ [name];
                known_face_ids := known_face_ids self ++ [uid] |})
       else (Return (false, failed_message),
             set_db self {| connection := Some c' |})) /\
    users c' =
      users c ++ (if answer 0 c
                  then [{| user_id := uid; user_name := name |}] else []) /\
    face_encodings_table c' =
      face_encodings_table c ++
        (if answer 0 c && answer 1 c
         then [{| enc_user_id := uid; enc_blob := pickle_dumps enc |}]
         else []) /\
    attendance c' = attendance c.
Proof.
  intros Hc Hloc Henc uid.
  unfold register_new_face. rewrite Hloc, Henc. cbn.
  unfold bind, ret, on_db.
  replace (db self) with {| connection := Some c |}
    by (destruct (db self); cbn in Hc; now subst).
  destruct (add_user_effect name c) as (c1 & -> & Hu1 & Hf1 & Ha1 & Hans).
  destruct (answer 0 c) eqn:E0;
    cbn -[add_face_encoding registered_message failed_message].
  - destruct (add_face_encoding_effect uid enc c1) as (c2 & E2 & Hu2 & Hf2 & Ha2).
    fold uid. rewrite E2, (Hans 0%nat).
    exists c2. destruct (answer 1 c) eqn:E1;
      cbn -[registered_message failed_message].
    + split; [reflexivity|]. rewrite Hu2, Hu1, Hf2, Hf1, Ha2, Ha1, (Hans 0%nat), E1.
      rewrite ?app_nil_r. auto.
    + split; [reflexivity|]. rewrite Hu2, Hu1, Hf2, Hf1, Ha2, Ha1, (Hans 0%nat), E1.
      rewrite ?app_nil_r. auto.
  - exists c1. split; [reflexivity|]. rewrite Hu1, Hf1, Ha1, ?app_nil_r. auto.
Qed.

(** C3.  For an image with exactly one detected face, on a system that holds
    a connection whose server commits the next two statements (the identity
    row, then the descriptor row), [register_new_face] returns success; the
    gallery grows by one entry, made of the extractor's descriptor for that
    face, the given name and the id the [users] table assigned; both rows
    are in the store. *)
Theorem register_single_face_success
  (self : FaceRecognitionSystem) (c : Connection)
  (name : string) (face_image : Image) (loc : Box) (enc : Encoding) :
  connection (db self) = Some c ->
  face_locations (cvtColor face_image) = [loc] ->
  face_encodings (cvtColor face_image) [loc] = [enc] ->
  answer 0 c = true ->
  answer 1 c = true ->
  exists self' c',
    register_new_face name face_image self =
      (Return (true, registered_message name), self') /\
    List.length (known_face_encodings self') =
      S (List.length (known_face_encodings self)) /\
    known_face_encodings self' = known_face_encodings self ++ [enc] /\
    known_face_names self' = known_face_names self ++ [name] /\
    known_face_ids self' =
      known_face_ids self ++ [Z.pos (users_auto_increment c)] /\
    connection (db self') = Some c' /\
    users c' =
      users c ++ [{| user_id := Z.pos (users_auto_increment c);
                     user_name := name |}] /\
    face_encodings_table c' =
      face_encodings_table c ++
        [{| enc_user_id := Z.pos (users_auto_increment c);
            enc_blob := pickle_dumps enc |}] /\
    attendance c' = attendance c.
Proof.
  intros Hc Hloc Henc H0 H1.
  destruct (register_single_face self c name face_image loc enc Hc Hloc Henc)
    as (c' & E & Hu & Hf & Ha).
  rewrite H0, H1 in *. cbn in E, Hu, Hf.
  eexists _, c'. split; [exact E|]. cbn.
  rewrite length_app. cbn. repeat split; try assumption. lia.
Qed.

(** Every call of [register_new_face] either leaves the three lists as they
    were, or appends one entry whose identity row and descriptor row are
    already in the store; a held connection stays held. *)
Lemma register_cases (self self' : FaceRecognitionSystem) (name : string)
  (face_image : Image) (out : Outcome (bool * string)) :
  register_new_face name face_image self = (out, self') ->
  (connected self -> connected self') /\
  ((known_face_encodings self' = known_face_encodings self /\
    known_face_names self' = known_face_names self /\
    known_face_ids self' = known_face_ids self) \/
   (exists c' enc uid,
      connection (db self') = Some c' /\
      In {| user_id := uid; user_name := name |} (users c') /\
      In {| enc_user_id := uid; enc_blob := pickle_dumps enc |}
         (face_encodings_table c') /\
      known_face_encodings self' = known_face_encodings self ++ [enc] /\
      known_face_names self' = known_face_names self ++ [name] /\
      known_face_ids self' = known_face_ids self ++ [uid])).
Proof.
  unfold register_new_face.
  destruct (List.length (face_locations (cvtColor face_image)) =? 0)%nat;
    [intros [= <- <-]; auto|].
  destruct (1 <? List.length (face_locations (cvtColor face_image)))%nat;
    [intros [= <- <-]; auto|].
  unfold bind at 1, index.
  destruct (face_encodings (cvtColor face_image)
              (face_locations (cvtColor face_image))) as [|enc rest];
    [intros [= <- <-]; auto|].
  cbn [nth_error ret]. unfold bind at 1, on_db.
  destruct self as [[[c|]] encs names ids]; cbn [db];
    [|intros [= <- <-]; auto].
  destruct (add_user_effect name c) as (c1 & -> & Hu1 & Hf1 & Ha1 & Hans).
  destruct (answer 0 c) eqn:E0;
    [|intros [= <- <-]; split; [intros _; discriminate|left; auto]].
  cbn [negb Z.eqb]. unfold bind, on_db. cbn [db].
  destruct (add_face_encoding_effect (Z.pos (users_auto_increment c)) enc c1)
    as (c2 & -> & Hu2 & Hf2 & Ha2).
  destruct (answer 0 c1) eqn:E1; cbn -[registered_message failed_message];
    intros [= <- <-].
  - split; [intros _; discriminate|]. right.
    exists c2, enc, (Z.pos (users_auto_increment c)).
    split; [reflexivity|]. rewrite Hu2, Hu1, Hf2.
    repeat split; apply in_or_app; right; now left.
  - split; [intros _; discriminate|left; auto].
Qed.

(** C4.  For an image with one detected face, on a system that holds a
    connection: when the server refuses the identity row, or commits it and
    refuses the descriptor row, [register_new_face] returns
    [(False, "Failed to register user")] and the three lists of the gallery
    are as before (the identity row stays orphaned in the second case).  And
    whatever the server answers, an entry is appended only with both of its
    rows already in the store. *)
Theorem register_persistence_failure :
  (forall (self : FaceRecognitionSystem) (c : Connection) (name : string)
          (face_image : Image) (loc : Box) (enc : Encoding),
      connection (db self) = Some c ->
      face_locations (cvtColor face_image) = [loc] ->
      face_encodings (cvtColor face_image) [loc] = [enc] ->
      answer 0 c = false \/ answer 1 c = false ->
      exists self' c',
        register_new_face name face_image self =
          (Return (false, failed_message), self') /\
        known_face_encodings self' = known_face_encodings self /\
        known_face_names self' = known_face_names self /\
        known_face_ids self' = known_face_ids self /\
        connection (db self') = Some c' /\
        face_encodings_table c' = face_encodings_table c /\
        attendance c' = attendance c /\
        users c' =
          users c ++
            (if answer 0 c
             then [{| user_id := Z.pos (users_auto_increment c);
                      user_name := name |}]
             else [])) /\
  (forall (self : FaceRecognitionSystem) (name : string) (face_image : Image),
      let self' := snd (register_new_face name face_image self) in
      known_face_encodings self' <> known_face_encodings self ->
      exists c' enc uid,
        connection (db self') = Some c' /\
        In {| user_id := uid; user_name := name |} (users c') /\
        In {| enc_user_id := uid; enc_blob := pickle_dumps enc |}
           (face_encodings_table c') /\
        known_face_encodings self' = known_face_encodings self ++ [enc] /\
        known_face_names self' = known_face_names self ++ [name] /\
        known_face_ids self' = known_face_ids self ++ [uid]).
Proof.
  split.
  - intros self c name face_image loc enc Hc Hloc Henc Hfail.
    destruct (register_single_face self c name face_image loc enc Hc Hloc Henc)
      as (c' & E & Hu & Hf & Ha).
    assert (Hand : answer 0 c && answer 1 c = false).
    { destruct Hfail as [-> | ->]; [reflexivity|apply andb_false_r]. }
    rewrite Hand in E, Hf. rewrite app_nil_r in Hf.
    eexists _, c'. split; [exact E|]. cbn. repeat split; assumption.
  - intros self name face_image self' Hchanged.
    destruct (register_cases self self' name face_image
                (fst (register_new_face name face_image self)))
      as (_ & [(He & _)|H]).
    + subst self'. now destruct (register_new_face name face_image self).
    + now elim Hchanged.
    + exact H.
Qed.

(** C5.  When the extractor finds no face in the image,
    [register_new_face] returns [(False, "No face detected in the image")]
    and the object, its gallery and its store, is as before. *)
Theorem register_no_face
  (self : FaceRecognitionSystem) (name : string) (face_image : Image) :
  face_locations (cvtColor face_image) = [] ->
  register_new_face name face_image self =
    (Return (false, no_face_message), self) /\
  List.length (known_face_encodings
                 (snd (register_new_face name face_image self))) =
    List.length (known_face_encodings self).
Proof.
  intros H. unfold register_new_face. rewrite H. cbn. split; reflexivity.
Qed.

(** C6.  When the extractor finds two or more faces in the image,
    [register_new_face] returns [(False, "Multiple faces detected. ...")]
    and the object, its gallery and its store, is as before. *)
Theorem register_multiple_faces
  (self : FaceRecognitionSystem) (name : string) (face_image : Image) :
  (2 <= List.length (face_locations (cvtColor face_image)))%nat ->
  register_new_face name face_image self =
    (Return (false, multiple_faces_message), self) /\
  List.length (known_face_encodings
                 (snd (register_new_face name face_image self))) =
    List.length (known_face_encodings self).
Proof.
  intros H. unfold register_new_face.
  destruct (face_locations (cvtColor face_image)) as [|l1 [|l2 ls]];
    cbn in H; try lia.
  cbn. split; reflexivity.
Qed.

(** ** Loading the gallery, and the states of a running system *)

Lemma select_faces_statement (c : Connection) :
  select_faces (snd (statement c)) = select_faces c.
Proof.
  destruct (statement_answer c) as (_ & Hu & Hf & _).
  unfold select_faces. now rewrite Hu, Hf.
Qed.

(** [load_known_faces] on an object that holds a connection.  When the
    query is refused it returns with no row; when every fetched row
    unpickles it returns and the three lists are the three columns of the
    rows; when a [pickle.loads] raises, that exception leaves the method
    before any list is assigned. *)
Lemma load_known_faces_connected (self : FaceRecognitionSystem) (c : Connection) :
  connection (db self) = Some c ->
  load_known_faces self =
    match (if answer 0 c then unpickle_rows (select_faces c) else Return []) with
    | Return rows =>
        (Return tt,
         {| db := {| connection := Some (snd (statement c)) |};
            known_face_encodings := map row_encoding rows;
            known_face_names := map row_name rows;
            known_face_ids := map row_id rows |})
    | Raise e =>
        (Raise e, set_db self {| connection := Some (snd (statement c)) |})
    end.
Proof.
  intros Hc. unfold load_known_faces, bind, on_db, get_all_face_encodings, get, put.
  rewrite Hc. destruct (statement_answer c) as (<- & _).
  rewrite <- (select_faces_statement c).
  destruct (statement c) as [[|] c1]; cbn [fst snd]; [|reflexivity].
  destruct (unpickle_rows (select_faces c1)); reflexivity.
Qed.

(** The query fails on a live connection: the gallery is empty, as
    [except mysql.connector.Error: return []] intends. *)
Lemma load_known_faces_query_refused (self : FaceRecognitionSystem) (c : Connection) :
  connection (db self) = Some c ->
  answer 0 c = false ->
  fst (load_known_faces self) = Return tt /\
  known_face_encodings (snd (load_known_faces self)) = [] /\
  known_face_names (snd (load_known_faces self)) = [] /\
  known_face_ids (snd (load_known_faces self)) = [].
Proof.
  intros Hc H0. rewrite (load_known_faces_connected self c Hc), H0.
  repeat split.
Qed.

(** [load_known_faces] on an object without a connection raises, and leaves
    the object as it was. *)
Lemma load_known_faces_disconnected (self : FaceRecognitionSystem) :
  connection (db self) = None ->
  load_known_faces self = (Raise AttributeError, self).
Proof.
  intros Hc. unfold load_known_faces, bind, on_db, get_all_face_encodings.
  rewrite Hc. destruct self as [[conn] encs names ids]. cbn in Hc. now subst.
Qed.

(** C7, as the code behaves.  With the server unreachable when the system is
    constructed, [connect] swallows the connector's error and leaves
    [self.connection = None]; [load_known_faces] then raises
    [AttributeError] out of the constructor instead of leaving an empty
    gallery. *)
Theorem startup_unreachable_store_raises :
  connection (DatabaseManager_init None) = None /\
  fst (load_known_faces
         {| db := DatabaseManager_init None;
            known_face_encodings := [];
            known_face_names := [];
            known_face_ids := [] |}) = Raise AttributeError /\
  FaceRecognitionSystem_init None = Raise AttributeError.
Proof. repeat split. Qed.

Lemma reachable_invariant (self : FaceRecognitionSystem) :
  reachable self -> parallel self /\ connected self.
Proof.
  induction 1 as [server self Hinit | self _ [Hp Hc] | self name img _ [Hp Hc]
                  | self frame _ [Hp Hc]].
  - unfold FaceRecognitionSystem_init in Hinit.
    destruct server as [c|]; [|discriminate].
    cbv zeta in Hinit.
    rewrite (load_known_faces_connected
               {| db := DatabaseManager_init (Some c);
                  known_face_encodings := [];
                  known_face_names := [];
                  known_face_ids := [] |} c eq_refl) in Hinit.
    destruct (if answer 0 c then unpickle_rows (select_faces c) else Return [])
      as [rows|e]; [|discriminate].
    injection Hinit as <-. split.
    + unfold parallel. cbn. now rewrite !length_map.
    + unfold connected. cbn. discriminate.
  - destruct (connection (db self)) as [c|] eqn:Ec; [|now elim Hc].
    rewrite (load_known_faces_connected self c Ec).
    destruct (if answer 0 c then unpickle_rows (select_faces c) else Return [])
      as [rows|e]; cbn [snd]; split.
    + unfold parallel. cbn. now rewrite !length_map.
    + unfold connected. cbn. discriminate.
    + exact Hp.
    + unfold connected. cbn. discriminate.
  - destruct (register_new_face name img self) as [out self'] eqn:E.
    destruct (register_cases self self' name img out E)
      as (Hconn & [(He & Hn & Hi)|(c' & enc & uid & _ & _ & _ & He & Hn & Hi)]);
      cbn [snd]; (split; [|now apply Hconn]);
      unfold parallel in *; rewrite He, Hn, Hi; [exact Hp|].
    rewrite !length_app. cbn. lia.
  - destruct (connection (db self)) as [c|] eqn:Ec; [|now elim Hc].
    destruct (recognize_faces_spec self c frame Hp Ec) as (c' & -> & _).
    cbn [snd]. split; [exact Hp|]. unfold connected. cbn. discriminate.
Qed.

(** C9.  In every state a running system can be in (after the constructor,
    and after any sequence of [load_known_faces], [register_new_face] and
    [recognize_faces] calls) the three lists have one length, so the
    position [np.argmin] returns over the distances to the known encodings
    is a valid index of [matches], of [known_face_names] and of
    [known_face_ids]. *)
Theorem gallery_lists_parallel (self : FaceRecognitionSystem) :
  reachable self ->
  List.length (known_face_names self) = List.length (known_face_encodings self) /\
  List.length (known_face_ids self) = List.length (known_face_encodings self) /\
  (forall e b,
      argmin (face_distance (known_face_encodings self) e) = Some b ->
      (b < List.length (compare_faces (known_face_encodings self) e tolerance) /\
       b < List.length (known_face_names self) /\
       b < List.length (known_face_ids self))%nat).
Proof.
  intros Hr. destruct (reachable_invariant self Hr) as [[Hn Hi] _].
  split; [exact Hn|]. split; [exact Hi|].
  intros e b Hb.
  set (ds := face_distance (known_face_encodings self) e) in *.
  assert (Hne : ds <> []) by (intros E; rewrite E in Hb; discriminate).
  destruct (argmin_spec ds Hne) as (i & d & Earg & Hmin).
  rewrite Hb in Earg. injection Earg as <-.
  pose proof (first_minimum_bound _ _ _ Hmin) as Hlt.
  unfold compare_faces. fold ds. rewrite length_map.
  assert (Hlen : List.length ds = List.length (known_face_encodings self))
    by (unfold ds, face_distance; apply length_map).
  lia.
Qed.

End Properties.

(** * The properties at work on the concrete world *)

Lemma demo_system_reachable : reachable (demo_system []).
Proof. exact (reach_init (Some (demo_server [])) (demo_system []) eq_refl). Qed.

Lemma unknown_named_system_reachable : reachable unknown_named_system.
Proof.
  exact (reach_register fresh_system "Unknown" probe_frame
           (reach_init (Some fresh_server) fresh_system eq_refl)).
Qed.

(** Entries A at distance 0.1 and B at distance 0.5 from the probe, tolerance
    0.6: the face is labelled A, whichever entry comes first in the gallery. *)
Example nearest_is_A_not_B :
  face_distance (known_face_encodings (demo_system [])) 0%Q
    = [(1 # 10)%Q; (5 # 10)%Q] /\
  fst (recognize_faces probe_frame (demo_system []))
    = Return ([demo_box], ["A"%string], [Some 1%Z]) /\
  fst (recognize_faces probe_frame
         {| db := db (demo_system []);
            known_face_encodings := [(5 # 10)%Q; (1 # 10)%Q];
            known_face_names := ["B"%string; "A"%string];
            known_face_ids := [2%Z; 1%Z] |})
    = Return ([demo_box], ["A"%string], [Some 1%Z]).
Proof. repeat split. Qed.

(** Witness of C1 (amended): the probe against the gallery A, B, with a server
    that answers every statement. *)
Lemma recognize_selects_nearest_witness :
  parallel (demo_system []) /\
  connection (db (demo_system [])) = Some (demo_server []) /\
  known_face_encodings (demo_system []) <> [] /\
  exists names ids c',
    recognize_faces probe_frame (demo_system []) =
      (Return (face_locations (cvtColor probe_frame), names, ids),
       set_db (demo_system []) {| connection := Some c' |}) /\
    List.length names =
      List.length (face_encodings (cvtColor probe_frame)
                     (face_locations (cvtColor probe_frame))) /\
    List.length ids =
      List.length (face_encodings (cvtColor probe_frame)
                     (face_locations (cvtColor probe_frame))) /\
    (forall i e,
        nth_error (face_encodings (cvtColor probe_frame)
                     (face_locations (cvtColor probe_frame))) i = Some e ->
        exists b k d name uid,
          nth_error (known_face_encodings (demo_system [])) b = Some k /\
          d = distance k e /\
          first_minimum
            (face_distance (known_face_encodings (demo_system [])) e) b d /\
          nth_error (known_face_names (demo_system [])) b = Some name /\
          nth_error (known_face_ids (demo_system [])) b = Some uid /\
          ((d <= tolerance)%Q ->
           nth_error names i = Some name /\
           nth_error ids i = Some (Some uid)) /\
          ((tolerance < d)%Q ->
           nth_error names i = Some "Unknown"%string /\
           nth_error ids i = Some None)) /\
    users c' = users (demo_server []) /\
    face_encodings_table c' = face_encodings_table (demo_server []) /\
    attendance c' =
      attendance (demo_server [])
        ++ committed (availability (demo_server [])) (recognized ids) /\
    (forallb (fun b => b) (availability (demo_server [])) = true ->
     attendance c' = attendance (demo_server []) ++ recognized ids) /\
    (forall e b d uid,
        face_encodings (cvtColor probe_frame)
          (face_locations (cvtColor probe_frame)) = [e] ->
        first_minimum
          (face_distance (known_face_encodings (demo_system [])) e) b d ->
        nth_error (known_face_ids (demo_system [])) b = Some uid ->
        (d <= tolerance)%Q ->
        ids = [Some uid] /\
        attendance c' =
          attendance (demo_server [])
            ++ (if answer 0 (demo_server []) then [uid] else [])).
Proof.
  split; [split; reflexivity|]. split; [reflexivity|]. split; [discriminate|].
  apply (recognize_selects_nearest_within_tolerance
           (demo_system []) (demo_server []) probe_frame).
  - split; reflexivity.
  - reflexivity.
  - discriminate.
Defined.

(** Counterexample to C1 as stated: the server refuses the attendance
    statement.  The probe is at distance 0.1 from A, within the tolerance, and
    is labelled A with A's id, but the attendance table has no new row. *)
Lemma matched_face_without_attendance_record :
  known_face_encodings (demo_system [false]) <> [] /\
  face_distance (known_face_encodings (demo_system [false])) 0%Q
    = [(1 # 10)%Q; (5 # 10)%Q] /\
  ((1 # 10) <= tolerance)%Q /\
  fst (recognize_faces probe_frame (demo_system [false]))
    = Return ([demo_box], ["A"%string], [Some 1%Z]) /\
  option_map attendance
    (connection (db (demo_system [false]))) = Some [] /\
  option_map attendance
    (connection (db (snd (recognize_faces probe_frame (demo_system [false])))))
    = Some [] /\
  option_map attendance
    (connection (db (snd (recognize_faces probe_frame (demo_system [false])))))
    <> option_map (fun c => attendance c ++ [1%Z])
         (connection (db (demo_system [false]))).
Proof.
  split; [discriminate|]. split; [reflexivity|].
  split; [vm_compute; discriminate|].
  split; [reflexivity|]. split; [reflexivity|]. split; [reflexivity|].
  vm_compute. discriminate.
Qed.


(** Witness of C10 (amended): a known face and a stranger in one frame. *)
Lemma recognize_output_shape_witness :
  parallel (demo_system []) /\
  connection (db (demo_system [])) = Some (demo_server []) /\
  exists names ids self',
    recognize_faces two_faces_frame (demo_system []) =
      (Return (face_locations (cvtColor two_faces_frame), names, ids), self') /\
    List.length names =
      List.length (face_encodings (cvtColor two_faces_frame)
                     (face_locations (cvtColor two_faces_frame))) /\
    List.length ids = List.length names /\
    (forall i, nth_error ids i = Some None ->
               nth_error names i = Some "Unknown"%string) /\
    (forall i uid,
        nth_error ids i = Some (Some uid) ->
        exists b name,
          nth_error names i = Some name /\
          nth_error (known_face_names (demo_system [])) b = Some name /\
          nth_error (known_face_ids (demo_system [])) b = Some uid) /\
    (~ In "Unknown"%string (known_face_names (demo_system [])) ->
     forall i, nth_error names i = Some "Unknown"%string ->
               nth_error ids i = Some None).
Proof.
  split; [split; reflexivity|]. split; [reflexivity|].
  apply (recognize_output_shape (demo_system []) (demo_server []) two_faces_frame).
  - split; reflexivity.
  - reflexivity.
Defined.

(** Counterexample to C10 as stated: a person enrolled under the name
    "Unknown" is recognized with the name "Unknown" and an id that is not
    [None]. *)
Lemma unknown_name_with_id :
  reachable unknown_named_system /\
  known_face_names unknown_named_system = ["Unknown"%string] /\
  exists names ids,
    fst (recognize_faces probe_frame unknown_named_system)
      = Return ([demo_box], names, ids) /\
    nth_error names 0 = Some "Unknown"%string /\
    nth_error ids 0 = Some (Some 1%Z) /\
    nth_error ids 0 <> Some None.
Proof.
  split; [exact unknown_named_system_reachable|]. split; [reflexivity|].
  exists ["Unknown"%string], [Some 1%Z].
  split; [reflexivity|]. split; [reflexivity|]. split; [reflexivity|discriminate].
Qed.

(** C8, as the code behaves.  The slider is at 0.3 and the only gallery entry
    is at distance 0.5 from the probe, beyond 0.3: the frame is matched with
    the literal 0.6 all the same, the face is labelled with that entry and an
    attendance row is written. *)
Theorem slider_tolerance_not_used :
  face_distance (known_face_encodings only_b_system) 0%Q = [(5 # 10)%Q] /\
  compare_faces (known_face_encodings only_b_system) 0%Q (3 # 10)%Q = [false] /\
  fst (home_page_frame (3 # 10)%Q probe_frame only_b_system)
    = Return ([demo_box], ["B"%string], [Some 2%Z]) /\
  option_map attendance
    (connection (db (snd (home_page_frame (3 # 10)%Q probe_frame only_b_system))))
    = Some [2%Z].
Proof. repeat split. Qed.

(** Witness of C3: a third person enrolled from a one-face picture. *)
Lemma register_single_face_success_witness :
  connection (db (demo_system [])) = Some (demo_server []) /\
  face_locations (cvtColor probe_frame) = [demo_box] /\
  face_encodings (cvtColor probe_frame) [demo_box] = [0%Q] /\
  answer 0 (demo_server []) = true /\
  answer 1 (demo_server []) = true /\
  exists (self' : @FaceRecognitionSystem demo) (c' : @Connection demo),
    register_new_face "C" probe_frame (demo_system []) =
      (Return (true, registered_message "C"), self') /\
    List.length (known_face_encodings self') =
      S (List.length (known_face_encodings (demo_system []))) /\
    known_face_encodings self' =
      known_face_encodings (demo_system []) ++ [0%Q] /\
    known_face_names self' =
      known_face_names (demo_system []) ++ ["C"%string] /\
    known_face_ids self' =
      known_face_ids (demo_system [])
        ++ [Z.pos (users_auto_increment (demo_server []))] /\
    connection (db self') = Some c' /\
    users c' =
      users (demo_server [])
        ++ [{| user_id := Z.pos (users_auto_increment (demo_server []));
               user_name := "C" |}] /\
    face_encodings_table c' =
      face_encodings_table (demo_server [])
        ++ [{| enc_user_id := Z.pos (users_auto_increment (demo_server []));
               enc_blob := @pickle_dumps demo 0%Q |}] /\
    attendance c' = attendance (demo_server []).
Proof.
  repeat (split; [reflexivity|]).
  apply (register_single_face_success
           (demo_system []) (demo_server []) "C" probe_frame demo_box 0%Q);
    reflexivity.
Defined.

(** Witness of C4: the server commits the identity row and refuses the
    descriptor row. *)
Lemma register_persistence_failure_witness :
  connection (db (demo_system [true; false]))
    = Some (demo_server [true; false]) /\
  face_locations (cvtColor probe_frame) = [demo_box] /\
  face_encodings (cvtColor probe_frame) [demo_box] = [0%Q] /\
  answer 1 (demo_server [true; false]) = false /\
  exists (self' : @FaceRecognitionSystem demo) (c' : @Connection demo),
    register_new_face "C" probe_frame (demo_system [true; false]) =
      (Return (false, failed_message), self') /\
    known_face_encodings self' =
      known_face_encodings (demo_system [true; false]) /\
    known_face_names self' = known_face_names (demo_system [true; false]) /\
    known_face_ids self' = known_face_ids (demo_system [true; false]) /\
    connection (db self') = Some c' /\
    face_encodings_table c' =
      face_encodings_table (demo_server [true; false]) /\
    attendance c' = attendance (demo_server [true; false]) /\
    users c' =
      users (demo_server [true; false]) ++
        (if answer 0 (demo_server [true; false])
         then [{| user_id :=
                    Z.pos (users_auto_increment (demo_server [true; false]));
                  user_name := "C" |}]
         else []).
Proof.
  repeat (split; [reflexivity|]).
  apply (proj1 (@register_persistence_failure demo)
           (demo_system [true; false]) (demo_server [true; false])
           "C"%string probe_frame demo_box 0%Q);
    try reflexivity.
  right. reflexivity.
Defined.

(** Witness of C5: a picture without a face. *)
Lemma register_no_face_witness :
  face_locations (cvtColor empty_frame) = [] /\
  register_new_face "C" empty_frame (demo_system []) =
    (Return (false, no_face_message), demo_system []) /\
  List.length (known_face_encodings
                 (snd (register_new_face "C" empty_frame (demo_system [])))) =
    List.length (known_face_encodings (demo_system [])).
Proof.
  split; [reflexivity|].
  apply (register_no_face (demo_system []) "C" empty_frame). reflexivity.
Defined.

(** Witness of C6: a picture with two faces. *)
Lemma register_multiple_faces_witness :
  (2 <= List.length (face_locations (cvtColor two_faces_frame)))%nat /\
  register_new_face "C" two_faces_frame (demo_system []) =
    (Return (false, multiple_faces_message), demo_system []) /\
  List.length (known_face_encodings
                 (snd (register_new_face "C" two_faces_frame (demo_system [])))) =
    List.length (known_face_encodings (demo_system [])).
Proof.
  split; [apply le_n|].
  apply (register_multiple_faces (demo_system []) "C" two_faces_frame).
  apply le_n.
Defined.

(** Witness of C9: the system started on the demo server. *)
Lemma gallery_lists_parallel_witness :
  reachable (demo_system []) /\
  List.length (known_face_names (demo_system [])) =
    List.length (known_face_encodings (demo_system [])) /\
  List.length (known_face_ids (demo_system [])) =
    List.length (known_face_encodings (demo_system [])) /\
  (forall e b,
      argmin (face_distance (known_face_encodings (demo_system [])) e) = Some b ->
      (b < List.length
             (compare_faces (known_face_encodings (demo_system [])) e tolerance) /\
       b < List.length (known_face_names (demo_system [])) /\
       b < List.length (known_face_ids (demo_system [])))%nat).
Proof.
  split; [exact demo_system_reachable|].
  apply (gallery_lists_parallel (demo_system [])).
  exact demo_system_reachable.
Defined.

(** * Further properties of the modelled code *)

(** ** [np.argmin] when an element is appended *)

Lemma argmin_of_first_minimum (ds : list Q) (b : nat) (d : Q) :
  first_minimum ds b d -> argmin ds = Some b.
Proof.
  intros Hmin.
  assert (Hne : ds <> []).
  { intros E. destruct Hmin as (Hat & _). rewrite E in Hat.
    destruct b; discriminate. }
  destruct (argmin_spec ds Hne) as (i & d' & -> & Hmin').
  f_equal. eapply first_minimum_unique; eauto.
Qed.

Lemma first_minimum_snoc_new (ds : list Q) (dn : Q) :
  (forall j dj, nth_error ds j = Some dj -> (dn < dj)%Q) ->
  first_minimum (ds ++ [dn]) (List.length ds) dn.
Proof.
  intros Hlt. repeat split.
  - apply nth_error_snoc_last.
  - intros j dj Hj. apply nth_error_snoc_inv in Hj.
    destruct Hj as [[_ Hj]|[_ ->]]; [|apply Qle_refl].
    apply Qlt_le_weak. eapply Hlt; eauto.
  - intros j dj Hj Hnth. apply nth_error_snoc_inv in Hnth.
    destruct Hnth as [[_ Hnth]|[-> _]]; [eapply Hlt; eauto|lia].
Qed.

Lemma first_minimum_snoc_old (ds : list Q) (b : nat) (d dn : Q) :
  first_minimum ds b d -> (d <= dn)%Q -> first_minimum (ds ++ [dn]) b d.
Proof.
  intros (Hat & Hmin & Hfirst) Hle.
  assert (Hb : (b < List.length ds)%nat) by (apply nth_error_Some; congruence).
  repeat split.
  - now rewrite nth_error_app1.
  - intros j dj Hj. apply nth_error_snoc_inv in Hj.
    destruct Hj as [[_ Hj]|[_ ->]]; [eapply Hmin; eauto|exact Hle].
  - intros j dj Hlt Hj. apply nth_error_snoc_inv in Hj.
    destruct Hj as [[_ Hj]|[-> _]]; [eapply Hfirst; eauto|lia].
Qed.

Section Further.

Context {ext : Collaborators}.

(** ** Recognition after an enrollment *)

Lemma recognize_faces_run (self : FaceRecognitionSystem) (frame : Image) :
  parallel self -> connected self ->
  recognize_faces frame self =
    (Return (face_locations (cvtColor frame),
             map (fun e => fst (decision self e))
                 (face_encodings (cvtColor frame)
                    (face_locations (cvtColor frame))),
             map (fun e => snd (decision self e))
                 (face_encodings (cvtColor frame)
                    (face_locations (cvtColor frame)))),
     set_db self
       (record_all
          (recognized
             (map (fun e => snd (decision self e))
                  (face_encodings (cvtColor frame)
                     (face_locations (cvtColor frame)))))
          (db self))).
Proof.
  intros Hp Hc. unfold recognize_faces, bind.
  now rewrite recognize_loop_spec.
Qed.

(** The decision on a gallery with one more entry, when the new entry is
    strictly nearest and within the tolerance. *)
Lemma decision_appended_nearest (d0 : DatabaseManager)
  (encs : list Encoding) (names : list string) (ids : list Z)
  (enc : Encoding) (name : string) (uid : Z) (e : Encoding) :
  List.length names = List.length encs ->
  List.length ids = List.length encs ->
  (distance enc e <= tolerance)%Q ->
  (forall k, In k encs -> (distance enc e < distance k e)%Q) ->
  decision {| db := d0;
              known_face_encodings := encs ++ [enc];
              known_face_names := names ++ [name];
              known_face_ids := ids ++ [uid] |} e = (name, Some uid).
Proof.
  intros Hn Hi Htol Hnear. unfold decision. cbn [known_face_encodings
    known_face_names known_face_ids].
  unfold face_distance. rewrite map_app. cbn [map].
  set (ds := map (fun k => distance k e) encs).
  assert (Hlen : List.length ds = List.length encs) by apply length_map.
  rewrite (argmin_of_first_minimum (ds ++ [distance enc e]) (List.length ds)
             (distance enc e)).
  - rewrite app_nth2, Nat.sub_diag by lia. cbn [nth].
    apply Qle_bool_iff in Htol. rewrite Htol.
    rewrite Hlen, <- Hn at 1. rewrite app_nth2, Nat.sub_diag by lia.
    rewrite Hlen, <- Hi. rewrite app_nth2, Nat.sub_diag by lia.
    reflexivity.
  - apply first_minimum_snoc_new. intros j dj Hj.
    apply nth_error_map_inv in Hj. destruct Hj as (k & Hk & ->).
    apply Hnear. eapply nth_error_In; eauto.
Qed.

(** The decision on a gallery with one more entry, when an older entry is at
    least as near: the new entry is not looked at. *)
Lemma decision_appended_shadowed (d0 d1 : DatabaseManager)
  (encs : list Encoding) (names : list string) (ids : list Z)
  (enc : Encoding) (name : string) (uid : Z) (e k : Encoding) :
  List.length names = List.length encs ->
  List.length ids = List.length encs ->
  In k encs ->
  (distance k e <= distance enc e)%Q ->
  decision {| db := d1;
              known_face_encodings := encs ++ [enc];
              known_face_names := names ++ [name];
              known_face_ids := ids ++ [uid] |} e =
  decision {| db := d0;
              known_face_encodings := encs;
              known_face_names := names;
              known_face_ids := ids |} e.
Proof.
  intros Hn Hi Hin Hle. unfold decision. cbn [known_face_encodings
    known_face_names known_face_ids].
  unfold face_distance. rewrite map_app. cbn [map].
  set (ds := map (fun k => distance k e) encs).
  assert (Hlen : List.length ds = List.length encs) by apply length_map.
  assert (Hne : ds <> []).
  { intros E. destruct encs; [destruct Hin|discriminate]. }
  destruct (argmin_spec ds Hne) as (b & d & Earg & Hmin).
  pose proof (first_minimum_bound _ _ _ Hmin) as Hb.
  assert (Hd : (d <= distance enc e)%Q).
  { apply Qle_trans with (distance k e); [|exact Hle].
    destruct (In_nth_error _ _ Hin) as (j & Hj).
    destruct Hmin as (_ & Hmin & _). apply (Hmin j).
    unfold ds. now rewrite nth_error_map, Hj. }
  rewrite (argmin_of_first_minimum _ _ _
             (first_minimum_snoc_old ds b d (distance enc e) Hmin Hd)).
  rewrite Earg. rewrite !app_nth1 by lia. reflexivity.
Qed.

(** X1.  Round trip of an enrollment: after a successful
    [register_new_face name img], [recognize_faces img] labels the face with
    [name] and the id the store assigned, provided the descriptor is within
    the tolerance of itself and strictly nearer to itself than to every
    entry enrolled before. *)
Theorem register_then_recognize
  (self : FaceRecognitionSystem) (c : Connection)
  (name : string) (img : Image) (loc : Box) (enc : Encoding) :
  parallel self ->
  connection (db self) = Some c ->
  face_locations (cvtColor img) = [loc] ->
  face_encodings (cvtColor img) [loc] = [enc] ->
  answer 0 c = true ->
  answer 1 c = true ->
  (distance enc enc <= tolerance)%Q ->
  (forall k, In k (known_face_encodings self) ->
             (distance enc enc < distance k enc)%Q) ->
  exists self1 self2,
    register_new_face name img self =
      (Return (true, registered_message name), self1) /\
    recognize_faces img self1 =
      (Return ([loc], [name], [Some (Z.pos (users_auto_increment c))]), self2).
Proof.
  intros [Hn Hi] Hc Hloc Henc H0 H1 Htol Hnear.
  destruct (register_single_face self c name img loc enc Hc Hloc Henc)
    as (c' & E & _).
  rewrite H0, H1 in E. cbn [andb] in E.
  eexists _, _. split; [exact E|].
  rewrite recognize_faces_run.
  - rewrite Hloc, Henc. cbn [map].
    rewrite decision_appended_nearest by assumption. reflexivity.
  - unfold parallel. cbn. rewrite !length_app. cbn. lia.
  - unfold connected. cbn. discriminate.
Qed.

(** X2.  A second enrollment is shadowed: when some entry already in the
    gallery is at least as near to the new descriptor as the descriptor is
    to itself (the same face enrolled before, under any name), a successful
    [register_new_face] appends the new name but does not change what
    [recognize_faces] returns for that picture. *)
Theorem duplicate_enrollment_shadowed
  (self : FaceRecognitionSystem) (c : Connection)
  (name : string) (img : Image) (loc : Box) (enc k : Encoding) :
  parallel self ->
  connection (db self) = Some c ->
  face_locations (cvtColor img) = [loc] ->
  face_encodings (cvtColor img) [loc] = [enc] ->
  answer 0 c = true ->
  answer 1 c = true ->
  In k (known_face_encodings self) ->
  (distance k enc <= distance enc enc)%Q ->
  exists self1,
    register_new_face name img self =
      (Return (true, registered_message name), self1) /\
    known_face_names self1 = known_face_names self ++ [name] /\
    fst (recognize_faces img self1) = fst (recognize_faces img self).
Proof.
  intros Hp Hc Hloc Henc H0 H1 Hin Hle.
  destruct (register_single_face self c name img loc enc Hc Hloc Henc)
    as (c' & E & _).
  rewrite H0, H1 in E. cbn [andb] in E.
  eexists. split; [exact E|]. split; [reflexivity|].
  destruct Hp as [Hn Hi].
  rewrite !recognize_faces_run.
  - cbn [fst]. rewrite Hloc, Henc. cbn [map].
    rewrite (decision_appended_shadowed (db self) _ _ _ _ _ _ _ _ k)
      by assumption.
    destruct self; reflexivity.
  - split; assumption.
  - unfold connected. congruence.
  - unfold parallel. cbn. rewrite !length_app. cbn. lia.
  - unfold connected. cbn. discriminate.
Qed.

(** ** What a call leaves in the store *)

Lemma store_grows_refl (c : Connection) : store_grows c c.
Proof.
  repeat split; try (exists []; now rewrite app_nil_r). apply Pos.le_refl.
Qed.

Lemma store_grows_trans (c1 c2 c3 : Connection) :
  store_grows c1 c2 -> store_grows c2 c3 -> store_grows c1 c3.
Proof.
  intros ((us & Hu) & (fs & Hf) & (ats & Ha) & Hi)
         ((us' & Hu') & (fs' & Hf') & (ats' & Ha') & Hi').
  repeat split.
  - exists (us ++ us'). now rewrite Hu', Hu, app_assoc.
  - exists (fs ++ fs'). now rewrite Hf', Hf, app_assoc.
  - exists (ats ++ ats'). now rewrite Ha', Ha, app_assoc.
  - eapply Pos.le_trans; eauto.
Qed.

Lemma db_grows_refl (d : DatabaseManager) : db_grows d d.
Proof.
  unfold db_grows. destruct (connection d); [apply store_grows_refl|exact I].
Qed.

Lemma add_user_full (name : string) (c : Connection) :
  exists c1,
    add_user name {| connection := Some c |} =
      (Return (if answer 0 c then Some (Z.pos (users_auto_increment c)) else None),
       {| connection := Some c1 |}) /\
    users c1 =
      users c ++ (if answer 0 c
                  then [{| user_id := Z.pos (users_auto_increment c);
                           user_name := name |}]
                  else []) /\
    face_encodings_table c1 = face_encodings_table c /\
    attendance c1 = attendance c /\
    users_auto_increment c1 =
      (if answer 0 c then Pos.succ (users_auto_increment c)
       else users_auto_increment c) /\
    (forall n, answer n c1 = answer (S n) c).
Proof.
  unfold add_user, statement, answer. cbn [connection].
  destruct (availability c) as [|[|] avail'] eqn:Ea; cbn.
  - eexists; split; [reflexivity|]. cbn. rewrite Ea.
    repeat split. intros [|n]; reflexivity.
  - eexists; split; [reflexivity|]. cbn. now repeat split.
  - eexists; split; [reflexivity|]. cbn. rewrite app_nil_r. now repeat split.
Qed.

Lemma add_face_encoding_full (uid : Z) (enc : Encoding) (c : Connection) :
  exists c1,
    add_face_encoding uid enc {| connection := Some c |} =
      (Return (answer 0 c), {| connection := Some c1 |}) /\
    users c1 = users c /\
    face_encodings_table c1 =
      face_encodings_table c ++
        (if answer 0 c
         then [{| enc_user_id := uid; enc_blob := pickle_dumps enc |}]
         else []) /\
    attendance c1 = attendance c /\
    users_auto_increment c1 = users_auto_increment c /\
    (forall n, answer n c1 = answer (S n) c).
Proof.
  unfold add_face_encoding, statement, answer. cbn [connection].
  destruct (availability c) as [|[|] avail'] eqn:Ea; cbn.
  - eexists; split; [reflexivity|]. cbn. rewrite Ea.
    repeat split. intros [|n]; reflexivity.
  - eexists; split; [reflexivity|]. cbn. now repeat split.
  - eexists; split; [reflexivity|]. cbn. rewrite app_nil_r. now repeat split.
Qed.

Lemma attendance_added_refl (d : DatabaseManager) : attendance_added 0 d d.
Proof.
  unfold attendance_added. destruct (connection d); [|exact I].
  repeat split. exists []. now rewrite app_nil_r.
Qed.

Lemma attendance_added_trans (n m : nat) (d1 d2 d3 : DatabaseManager) :
  attendance_added n d1 d2 -> attendance_added m d2 d3 ->
  attendance_added (n + m) d1 d3.
Proof.
  unfold attendance_added.
  destruct (connection d1), (connection d2), (connection d3);
    try tauto.
  intros (Hu & Hf & Hi & ats & Ha & Hl) (Hu' & Hf' & Hi' & ats' & Ha' & Hl').
  repeat split; try congruence.
  exists (ats ++ ats'). rewrite Ha', Ha, app_assoc, length_app.
  split; [reflexivity|lia].
Qed.

Lemma attendance_added_weaken (n m : nat) (d d' : DatabaseManager) :
  (n <= m)%nat -> attendance_added n d d' -> attendance_added m d d'.
Proof.
  unfold attendance_added. intros Hle.
  destruct (connection d), (connection d'); try tauto.
  intros (Hu & Hf & Hi & ats & Ha & Hl). repeat split; try assumption.
  exists ats. split; [assumption|lia].
Qed.

Lemma record_attendance_added (uid : Z) (d : DatabaseManager) :
  attendance_added 1 d (snd (record_attendance uid d)).
Proof.
  destruct d as [[c|]].
  - destruct (record_attendance_effect uid c)
      as (c' & -> & Ha & Hu & Hf & Hi & _).
    unfold attendance_added. cbn. repeat split; try assumption.
    eexists. split; [exact Ha|]. destruct (answer 0 c); cbn; lia.
  - exact I.
Qed.

Lemma recognize_face_effect (self : FaceRecognitionSystem) (e : Encoding) :
  exists o d,
    recognize_face e self = (o, set_db self d) /\
    attendance_added 1 (db self) d.
Proof.
  assert (Hsame : forall o : Outcome (string * option Z),
             exists o' d, (o, self) = (o', set_db self d) /\
                          attendance_added 1 (db self) d).
  { intros o. exists o, (db self). rewrite set_db_db. split; [reflexivity|].
    apply (attendance_added_weaken 0); [lia|apply attendance_added_refl]. }
  unfold recognize_face, bind, get, index, ret, raise. cbn beta iota.
  destruct (0 <? _)%nat; [|apply Hsame].
  destruct (argmin _) as [b|]; [|apply Hsame].
  destruct (nth_error (compare_faces _ _ _) b) as [[|]|]; try apply Hsame.
  destruct (nth_error (known_face_names self) b) as [name|]; [|apply Hsame].
  destruct (nth_error (known_face_ids self) b) as [uid|]; [|apply Hsame].
  unfold on_db.
  pose proof (record_attendance_added uid (db self)) as Hadd.
  destruct (record_attendance uid (db self)) as [[ok|ex] d]; cbn [snd] in Hadd;
    eexists _, d; (split; [reflexivity|exact Hadd]).
Qed.

Lemma recognize_loop_effect (es : list Encoding) :
  forall (self : FaceRecognitionSystem) names ids,
  exists o d,
    recognize_loop es names ids self = (o, set_db self d) /\
    attendance_added (List.length es) (db self) d.
Proof.
  induction es as [|e es IH]; intros self names ids.
  - cbn. eexists _, (db self). rewrite set_db_db. split; [reflexivity|].
    apply attendance_added_refl.
  - cbn [recognize_loop List.length]. unfold bind at 1.
    destruct (recognize_face_effect self e) as (o & d & -> & Hadd).
    destruct o as [r|ex].
    + destruct (IH (set_db self d) (names ++ [fst r]) (ids ++ [snd r]))
        as (o' & d' & -> & Hadd').
      exists o', d'. split; [reflexivity|].
      apply (attendance_added_trans 1 (List.length es) _ d); assumption.
    + exists (Raise ex), d. split; [reflexivity|].
      apply (attendance_added_weaken 1); [lia|exact Hadd].
Qed.

Lemma recognize_touches_only_attendance_aux
  (self : FaceRecognitionSystem) (frame : Image) :
  known_face_encodings (snd (recognize_faces frame self))
    = known_face_encodings self /\
  known_face_names (snd (recognize_faces frame self))
    = known_face_names self /\
  known_face_ids (snd (recognize_faces frame self)) = known_face_ids self /\
  attendance_added
    (List.length (face_encodings (cvtColor frame)
                    (face_locations (cvtColor frame))))
    (db self) (db (snd (recognize_faces frame self))).
Proof.
  unfold recognize_faces, bind.
  destruct (recognize_loop_effect
              (face_encodings (cvtColor frame) (face_locations (cvtColor frame)))
              self [] []) as (o & d & -> & Hadd).
  destruct o; cbn; repeat split; exact Hadd.
Qed.

(** X3.  [recognize_faces], on any object and any frame, whether it returns
    or raises: the three gallery lists are left as they were, the [users]
    and [face_encodings] tables are left as they were, rows are only added
    at the end of [attendance], at most one per detected face encoding; an
    object without a connection stays without one. *)
Theorem recognize_touches_only_attendance
  (self : FaceRecognitionSystem) (frame : Image) :
  known_face_encodings (snd (recognize_faces frame self))
    = known_face_encodings self /\
  known_face_names (snd (recognize_faces frame self))
    = known_face_names self /\
  known_face_ids (snd (recognize_faces frame self)) = known_face_ids self /\
  attendance_added
    (List.length (face_encodings (cvtColor frame)
                    (face_locations (cvtColor frame))))
    (db self) (db (snd (recognize_faces frame self))).
Proof. exact (recognize_touches_only_attendance_aux self frame). Qed.

Ltac solve_grows :=
  unfold store_grows; repeat split;
  first [ eexists; reflexivity
        | exists []; rewrite app_nil_r; reflexivity
        | lia ].

(** Every path of [register_new_face], on any object. *)
Lemma register_effect (self self' : FaceRecognitionSystem) (name : string)
  (face_image : Image) (out : Outcome (bool * string)) :
  register_new_face name face_image self = (out, self') ->
  db_grows (db self) (db self') /\
  match connection (db self), connection (db self') with
  | Some c, Some c' => attendance c' = attendance c
  | _, _ => True
  end /\
  ((out = Return (true, registered_message name) /\
    exists c' enc uid,
      connection (db self') = Some c' /\
      In {| user_id := uid; user_name := name |} (users c') /\
      In {| enc_user_id := uid; enc_blob := pickle_dumps enc |}
         (face_encodings_table c') /\
      known_face_encodings self' = known_face_encodings self ++ [enc] /\
      known_face_names self' = known_face_names self ++ [name] /\
      known_face_ids self' = known_face_ids self ++ [uid]) \/
   ((forall message, out <> Return (true, message)) /\
    known_face_encodings self' = known_face_encodings self /\
    known_face_names self' = known_face_names self /\
    known_face_ids self' = known_face_ids self)).
Proof.
  assert (Hsame : forall o : Outcome (bool * string),
             (forall message, o <> Return (true, message)) ->
             (o, self) = (out, self') ->
             db_grows (db self) (db self') /\
             match connection (db self), connection (db self') with
             | Some c, Some c' => attendance c' = attendance c
             | _, _ => True
             end /\
             ((out = Return (true, registered_message name) /\
               exists c' enc uid,
                 connection (db self') = Some c' /\
                 In {| user_id := uid; user_name := name |} (users c') /\
                 In {| enc_user_id := uid; enc_blob := pickle_dumps enc |}
                    (face_encodings_table c') /\
                 known_face_encodings self' = known_face_encodings self ++ [enc] /\
                 known_face_names self' = known_face_names self ++ [name] /\
                 known_face_ids self' = known_face_ids self ++ [uid]) \/
              ((forall message, out <> Return (true, message)) /\
               known_face_encodings self' = known_face_encodings self /\
               known_face_names self' = known_face_names self /\
               known_face_ids self' = known_face_ids self))).
  { intros o Ho [= <- <-]. split; [apply db_grows_refl|].
    split; [destruct (connection (db self)); reflexivity|].
    right. auto. }
  unfold register_new_face.
  destruct (List.length (face_locations (cvtColor face_image)) =? 0)%nat;
    [apply Hsame; intros m; discriminate|].
  destruct (1 <? List.length (face_locations (cvtColor face_image)))%nat;
    [apply Hsame; intros m; discriminate|].
  unfold bind at 1, index.
  destruct (face_encodings (cvtColor face_image)
              (face_locations (cvtColor face_image))) as [|enc rest];
    [apply Hsame; intros m; discriminate|].
  cbn [nth_error ret]. unfold bind at 1, on_db.
  clear Hsame.
  destruct self as [[[c|]] encs names ids]; cbn [db].
  2:{ intros [= <- <-]. cbn. split; [exact I|]. split; [exact I|].
      right. split; [intros m; discriminate|auto]. }
  destruct (add_user_full name c) as (c1 & -> & Hu1 & Hf1 & Ha1 & Hi1 & Hans).
  destruct (answer 0 c) eqn:E0.
  2:{ intros [= <- <-]. unfold db_grows. cbn.
      split; [rewrite app_nil_r in Hu1; unfold store_grows;
              rewrite Hu1, Hf1, Ha1, Hi1; solve_grows|].
      split; [exact Ha1|]. right. split; [intros m; discriminate|auto]. }
  cbn [negb Z.eqb]. unfold bind, on_db. cbn [db].
  destruct (add_face_encoding_full (Z.pos (users_auto_increment c)) enc c1)
    as (c2 & -> & Hu2 & Hf2 & Ha2 & Hi2 & _).
  destruct (answer 0 c1) eqn:E1; cbn -[registered_message failed_message];
    intros [= <- <-]; unfold db_grows; cbn.
  - split; [unfold store_grows; rewrite Hu2, Hu1, Hf2, Hf1, Ha2, Ha1, Hi2, Hi1;
            solve_grows|].
    split; [congruence|]. left. split; [reflexivity|].
    exists c2, enc, (Z.pos (users_auto_increment c)).
    split; [reflexivity|]. rewrite Hu2, Hu1, Hf2.
    repeat split; apply in_or_app; right; now left.
  - split; [rewrite app_nil_r in Hf2; unfold store_grows;
            rewrite Hu2, Hu1, Hf2, Hf1, Ha2, Ha1, Hi2, Hi1; solve_grows|].
    split; [congruence|]. right. split; [intros m; discriminate|auto].
Qed.

(** X4.  [register_new_face], on any object and any image, whether it
    returns or raises: it returns [True] (with the "registered
    successfully" message) exactly on the path that appends one entry, whose
    two rows are then in the store; on every other outcome the three lists
    are as before.  It never touches [attendance], and never removes or
    changes a row of [users] or [face_encodings]. *)
Theorem register_success_iff_appended
  (self : FaceRecognitionSystem) (name : string) (face_image : Image) :
  db_grows (db self) (db (snd (register_new_face name face_image self))) /\
  match connection (db self),
        connection (db (snd (register_new_face name face_image self))) with
  | Some c, Some c' => attendance c' = attendance c
  | _, _ => True
  end /\
  ((fst (register_new_face name face_image self)
      = Return (true, registered_message name) /\
    exists c' enc uid,
      connection (db (snd (register_new_face name face_image self))) = Some c' /\
      In {| user_id := uid; user_name := name |} (users c') /\
      In {| enc_user_id := uid; enc_blob := pickle_dumps enc |}
         (face_encodings_table c') /\
      known_face_encodings (snd (register_new_face name face_image self))
        = known_face_encodings self ++ [enc] /\
      known_face_names (snd (register_new_face name face_image self))
        = known_face_names self ++ [name] /\
      known_face_ids (snd (register_new_face name face_image self))
        = known_face_ids self ++ [uid]) \/
   ((forall message,
        fst (register_new_face name face_image self)
          <> Return (true, message)) /\
    known_face_encodings (snd (register_new_face name face_image self))
      = known_face_encodings self /\
    known_face_names (snd (register_new_face name face_image self))
      = known_face_names self /\
    known_face_ids (snd (register_new_face name face_image self))
      = known_face_ids self)).
Proof.
  destruct (register_new_face name face_image self) as [out self'] eqn:E.
  exact (register_effect self self' name face_image out E).
Qed.

(** ** The gallery and the rows behind it *)

Lemma select_faces_In (c : Connection) (r : RawRow) :
  In r (select_faces c) <->
  exists u f,
    In u (users c) /\ In f (face_encodings_table c) /\
    enc_user_id f = user_id u /\
    r = {| raw_id := user_id u; raw_name := user_name u;
           raw_encoding := enc_blob f |}.
Proof.
  unfold select_faces. rewrite in_flat_map. split.
  - intros (u & Hu & Hr). apply in_map_iff in Hr. destruct Hr as (f & <- & Hf).
    apply filter_In in Hf. destruct Hf as (Hf & Heq).
    apply Z.eqb_eq in Heq. now exists u, f.
  - intros (u & f & Hu & Hf & Heq & ->). exists u. split; [exact Hu|].
    apply in_map_iff. exists f. split; [reflexivity|].
    apply filter_In. split; [exact Hf|]. now apply Z.eqb_eq.
Qed.

Lemma unpickle_rows_nth (raws : list RawRow) :
  forall rows i r,
    unpickle_rows raws = Return rows ->
    nth_error rows i = Some r ->
    exists raw,
      nth_error raws i = Some raw /\
      row_id r = raw_id raw /\ row_name r = raw_name raw /\
      pickle_loads (raw_encoding raw) = Return (row_encoding r).
Proof.
  induction raws as [|raw raws IH]; intros rows i r Hrows Hr.
  - injection Hrows as <-. destruct i; discriminate.
  - cbn [unpickle_rows] in Hrows.
    destruct (pickle_loads (raw_encoding raw)) as [enc|] eqn:Eenc; [|discriminate].
    destruct (unpickle_rows raws) as [rows'|]; [|discriminate].
    injection Hrows as <-. destruct i as [|i].
    + injection Hr as <-. exists raw. cbn. auto.
    + cbn in Hr. destruct (IH rows' i r eq_refl Hr) as (raw' & H).
      exists raw'. exact H.
Qed.

Lemma backed_loaded (d : DatabaseManager) (c : Connection) (rows : list FaceRow) :
  unpickle_rows (select_faces c) = Return rows ->
  backed {| db := d;
            known_face_encodings := map row_encoding rows;
            known_face_names := map row_name rows;
            known_face_ids := map row_id rows |} c.
Proof.
  intros Hrows i name uid enc Hn Hi He. cbn in Hn, Hi, He.
  apply nth_error_map_inv in Hn. destruct Hn as (r & Hr & ->).
  rewrite nth_error_map, Hr in Hi. rewrite nth_error_map, Hr in He.
  cbn in Hi, He. injection Hi as <-. injection He as <-.
  destruct (unpickle_rows_nth _ _ _ _ Hrows Hr) as (raw & Hraw & -> & -> & Hl).
  apply nth_error_In, select_faces_In in Hraw.
  destruct Hraw as (u & f & Hu & Hf & Heq & ->). cbn in *.
  split; [now destruct u|].
  exists (enc_blob f). split; [|now left].
  rewrite <- Heq. now destruct f.
Qed.

Lemma backed_no_entry (d : DatabaseManager) (c : Connection) :
  backed {| db := d;
            known_face_encodings := [];
            known_face_names := [];
            known_face_ids := [] |} c.
Proof. intros [|i] name uid enc Hn; discriminate. Qed.

Lemma store_grows_statement (c : Connection) : store_grows c (snd (statement c)).
Proof.
  destruct (statement_answer c) as (_ & Hu & Hf & Ha & Hi & _).
  unfold store_grows. rewrite Hu, Hf, Ha, Hi.
  repeat split; try (exists []; now rewrite app_nil_r). apply Pos.le_refl.
Qed.

Lemma backed_store_grows (self : FaceRecognitionSystem) (c c' : Connection) :
  backed self c -> store_grows c c' -> backed self c'.
Proof.
  intros Hb ((us & Hu) & (fs & Hf) & _) i name uid enc Hn Hi He.
  destruct (Hb i name uid enc Hn Hi He) as (Hin & blob & Hblob & Hor).
  rewrite Hu, Hf. split; [apply in_or_app; now left|].
  exists blob. split; [apply in_or_app; now left|exact Hor].
Qed.

Lemma backed_same_gallery (self self' : FaceRecognitionSystem) (c : Connection) :
  known_face_encodings self' = known_face_encodings self ->
  known_face_names self' = known_face_names self ->
  known_face_ids self' = known_face_ids self ->
  backed self c -> backed self' c.
Proof.
  intros He Hn Hi Hb i name uid enc. rewrite He, Hn, Hi. apply Hb.
Qed.

Lemma attendance_added_grows (n : nat) (d d' : DatabaseManager) :
  attendance_added n d d' -> db_grows d d'.
Proof.
  unfold attendance_added, db_grows.
  destruct (connection d) as [c|], (connection d') as [c'|]; try tauto.
  intros (Hu & Hf & Hi & ats & Ha & _). unfold store_grows.
  rewrite Hu, Hf, Hi, Ha. solve_grows.
Qed.

Lemma reachable_backed (self : FaceRecognitionSystem) :
  reachable self ->
  exists c, connection (db self) = Some c /\ backed self c.
Proof.
  induction 1 as [server self Hinit | self Hr (c & Hc & Hb)
                  | self name img Hr (c & Hc & Hb)
                  | self frame Hr (c & Hc & Hb)].
  - unfold FaceRecognitionSystem_init in Hinit.
    destruct server as [c|]; [|discriminate].
    cbv zeta in Hinit.
    rewrite (load_known_faces_connected
               {| db := DatabaseManager_init (Some c);
                  known_face_encodings := [];
                  known_face_names := [];
                  known_face_ids := [] |} c eq_refl) in Hinit.
    destruct (answer 0 c);
      [destruct (unpickle_rows (select_faces c)) as [rows|e] eqn:Erows;
       [|discriminate]|];
      injection Hinit as <-; eexists; (split; [reflexivity|]);
      (eapply backed_store_grows; [|apply store_grows_statement]).
    + now apply backed_loaded.
    + apply backed_no_entry.
  - rewrite (load_known_faces_connected self c Hc).
    destruct (answer 0 c);
      [destruct (unpickle_rows (select_faces c)) as [rows|e] eqn:Erows|];
      cbn [snd]; eexists; (split; [reflexivity|]);
      (eapply backed_store_grows; [|apply store_grows_statement]).
    + now apply backed_loaded.
    + exact Hb.
    + apply backed_no_entry.
  - destruct (reachable_invariant self Hr) as [[Hpn Hpi] _].
    destruct (register_new_face name img self) as [out self'] eqn:E.
    destruct (register_effect self self' name img out E)
      as (Hg & _ & Hcases). cbn [snd].
    unfold db_grows in Hg. rewrite Hc in Hg.
    destruct (connection (db self')) as [c'|] eqn:Ec'; [|destruct Hg].
    exists c'. split; [reflexivity|].
    destruct Hcases as [(_ & c2 & enc & uid & Hc2 & Hu & Hf & He & Hn & Hi)
                       |(_ & He & Hn & Hi)].
    + injection Hc2 as <-.
      intros i name' uid' enc' Hn' Hi' He'.
      rewrite Hn in Hn'. rewrite Hi in Hi'. rewrite He in He'.
      apply nth_error_snoc_inv in Hn', Hi', He'.
      destruct Hn' as [[Hlt Hn']|[-> ->]].
      * destruct Hi' as [[_ Hi']|[Hi' _]]; [|lia].
        destruct He' as [[_ He']|[He' _]]; [|lia].
        exact (backed_store_grows self c c' Hb Hg i name' uid' enc' Hn' Hi' He').
      * destruct Hi' as [[Hi' _]|[_ ->]]; [lia|].
        destruct He' as [[He' _]|[_ ->]]; [lia|].
        split; [exact Hu|]. exists (pickle_dumps enc). split; [exact Hf|now right].
    + apply (backed_same_gallery self self' c' He Hn Hi).
      exact (backed_store_grows self c c' Hb Hg).
  - destruct (recognize_touches_only_attendance_aux self frame)
      as (He & Hn & Hi & Hadd).
    apply attendance_added_grows in Hadd. unfold db_grows in Hadd.
    rewrite Hc in Hadd.
    destruct (connection (db (snd (recognize_faces frame self)))) as [c'|] eqn:Ec';
      [|destruct Hadd].
    exists c'. split; [reflexivity|].
    apply (backed_same_gallery self _ c' He Hn Hi).
    exact (backed_store_grows self c c' Hb Hadd).
Qed.

(** X5.  Write-through: in every state a running system can be in, it holds
    a connection, and every gallery entry (name, id and encoding at one
    position) has its identity row in [users] and a descriptor row for that
    id in [face_encodings], holding the entry's encoding (as loaded from the
    row, or as pickled into it). *)
Theorem gallery_entries_backed (self : FaceRecognitionSystem) :
  reachable self ->
  exists c, connection (db self) = Some c /\ backed self c.
Proof. exact (reachable_backed self). Qed.

(** ** Memory and store through an enrollment *)

Lemma register_single_face_full (self : FaceRecognitionSystem) (c : Connection)
  (name : string) (face_image : Image) (loc : Box) (enc : Encoding) :
  connection (db self) = Some c ->
  face_locations (cvtColor face_image) = [loc] ->
  face_encodings (cvtColor face_image) [loc] = [enc] ->
  let uid := Z.pos (users_auto_increment c) in
  exists c',
    register_new_face name face_image self =
      (if answer 0 c && answer 1 c
       then (Return (true, registered_message name),
             {| db := {| connection := Some c' |};
                known_face_encodings := known_face_encodings self ++ [enc];
                known_face_names := known_face_names self ++ [name];
                known_face_ids := known_face_ids self ++ [uid] |})
       else (Return (false, failed_message),
             set_db self {| connection := Some c' |})) /\
    users c' =
      users c ++ (if answer 0 c
                  then [{| user_id := uid; user_name := name |}] else []) /\
    face_encodings_table c' =
      face_encodings_table c ++
        (if answer 0 c && answer 1 c
         then [{| enc_user_id := uid; enc_blob := pickle_dumps enc |}]
         else []) /\
    attendance c' = attendance c /\
    users_auto_increment c' =
      (if answer 0 c then Pos.succ (users_auto_increment c)
       else users_auto_increment c) /\
    (forall n, answer n c' = answer (if answer 0 c then 2 + n else 1 + n) c).
Proof.
  intros Hc Hloc Henc uid.
  unfold register_new_face. rewrite Hloc, Henc. cbn.
  unfold bind, ret, on_db.
  replace (db self) with {| connection := Some c |}
    by (destruct (db self); cbn in Hc; now subst).
  destruct (add_user_full name c) as (c1 & -> & Hu1 & Hf1 & Ha1 & Hi1 & Hans).
  destruct (answer 0 c) eqn:E0;
    cbn -[add_face_encoding registered_message failed_message].
  - destruct (add_face_encoding_full uid enc c1)
      as (c2 & E2 & Hu2 & Hf2 & Ha2 & Hi2 & Hans2).
    fold uid. rewrite E2, (Hans 0%nat).
    exists c2. destruct (answer 1 c) eqn:E1;
      cbn -[registered_message failed_message];
      (split; [reflexivity|]);
      rewrite Hu2, Hu1, Hf2, Hf1, Ha2, Ha1, Hi2, Hi1, (Hans 0%nat), E1,
        ?app_nil_r;
      repeat split; intros n; now rewrite Hans2, Hans.
  - exists c1. split; [reflexivity|].
    rewrite Hu1, Hf1, Ha1, Hi1, ?app_nil_r. repeat split. apply Hans.
Qed.

Local Abbreviation join us fs :=
  (flat_map
     (fun u => map (fun f => {| raw_id := user_id u; raw_name := user_name u;
                                raw_encoding := enc_blob f |})
                   (filter (fun f => (enc_user_id f =? user_id u)%Z) fs))
     us).

Lemma join_new_row_other_users (us : list UserRow) (fs : list EncodingRow)
  (row : EncodingRow) :
  (forall u, In u us -> user_id u <> enc_user_id row) ->
  join us (fs ++ [row]) = join us fs.
Proof.
  induction us as [|u us IH]; intros Hne; [reflexivity|].
  cbn [flat_map]. rewrite IH by (intros; apply Hne; now right).
  f_equal. rewrite filter_app. cbn [filter].
  replace (enc_user_id row =? user_id u)%Z with false.
  - now rewrite app_nil_r.
  - symmetry. apply Z.eqb_neq. intros E. apply (Hne u); [now left|auto].
Qed.

Lemma filter_no_row (uid : Z) (fs : list EncodingRow) :
  (forall f, In f fs -> enc_user_id f <> uid) ->
  filter (fun f => (enc_user_id f =? uid)%Z) fs = [].
Proof.
  induction fs as [|f fs IH]; intros Hne; [reflexivity|].
  cbn [filter].
  replace (enc_user_id f =? uid)%Z with false
    by (symmetry; apply Z.eqb_neq; apply Hne; now left).
  apply IH. intros; apply Hne; now right.
Qed.

Lemma join_user_without_rows (u : UserRow) (fs : list EncodingRow) :
  (forall f, In f fs -> enc_user_id f <> user_id u) ->
  join [u] fs = [].
Proof.
  intros Hne. cbn [flat_map]. rewrite app_nil_r.
  now rewrite filter_no_row.
Qed.

Lemma select_faces_same_tables (c c' : Connection) :
  users c' = users c -> face_encodings_table c' = face_encodings_table c ->
  select_faces c' = select_faces c.
Proof. unfold select_faces. now intros -> ->. Qed.

Lemma select_faces_orphan (c c' : Connection) (name : string) :
  fresh_ids c ->
  users c' = users c ++ [{| user_id := Z.pos (users_auto_increment c);
                            user_name := name |}] ->
  face_encodings_table c' = face_encodings_table c ->
  select_faces c' = select_faces c.
Proof.
  intros [_ Hfs] Hu Hf. unfold select_faces. rewrite Hu, Hf, flat_map_app.
  rewrite join_user_without_rows; [apply app_nil_r|].
  intros f Hin. cbn. apply Hfs in Hin. lia.
Qed.

Lemma select_faces_enrolled (c c' : Connection) (name : string) (blob : Blob) :
  fresh_ids c ->
  users c' = users c ++ [{| user_id := Z.pos (users_auto_increment c);
                            user_name := name |}] ->
  face_encodings_table c' =
    face_encodings_table c ++
      [{| enc_user_id := Z.pos (users_auto_increment c); enc_blob := blob |}] ->
  select_faces c' =
    select_faces c ++
      [{| raw_id := Z.pos (users_auto_increment c); raw_name := name;
          raw_encoding := blob |}].
Proof.
  intros [Hus Hfs] Hu Hf. unfold select_faces. rewrite Hu, Hf, flat_map_app.
  rewrite join_new_row_other_users
    by (intros u Hin; cbn; apply Hus in Hin; lia).
  f_equal. cbn [flat_map]. rewrite app_nil_r, filter_app. cbn [filter user_id enc_user_id].
  rewrite Z.eqb_refl.
  rewrite filter_no_row; [reflexivity|].
  intros f Hin. apply Hfs in Hin. lia.
Qed.

Lemma unpickle_rows_snoc (raws : list RawRow) (raw : RawRow)
  (rows : list FaceRow) (enc : Encoding) :
  unpickle_rows raws = Return rows ->
  pickle_loads (raw_encoding raw) = Return enc ->
  unpickle_rows (raws ++ [raw]) =
    Return (rows ++ [{| row_id := raw_id raw; row_name := raw_name raw;
                        row_encoding := enc |}]).
Proof.
  revert rows. induction raws as [|r raws IH]; intros rows Hrows Henc.
  - injection Hrows as <-. cbn. now rewrite Henc.
  - cbn [app unpickle_rows] in *.
    destruct (pickle_loads (raw_encoding r)) as [e|]; [|discriminate].
    destruct (unpickle_rows raws) as [rows'|]; [|discriminate].
    injection Hrows as <-. now rewrite (IH rows' eq_refl Henc).
Qed.

Lemma gallery_rows_of_columns (rows : list FaceRow) :
  gallery_rows_of (map row_id rows) (map row_name rows) (map row_encoding rows)
    = rows.
Proof.
  induction rows as [|[uid name enc] rows IH]; [reflexivity|].
  cbn. now rewrite IH.
Qed.

Lemma gallery_rows_of_snoc (ids : list Z) :
  forall (names : list string) (encs : list Encoding)
         (uid : Z) (name : string) (enc : Encoding),
    List.length names = List.length encs ->
    List.length ids = List.length encs ->
    gallery_rows_of (ids ++ [uid]) (names ++ [name]) (encs ++ [enc]) =
      gallery_rows_of ids names encs
        ++ [{| row_id := uid; row_name := name; row_encoding := enc |}].
Proof.
  induction ids as [|i ids IH]; intros [|n names] [|e encs] uid name enc Hn Hi;
    try discriminate; [reflexivity|].
  cbn. rewrite IH; [reflexivity| |]; cbn in Hn, Hi; lia.
Qed.

(** The constructor on a reachable server: it returns with the columns of
    the fetched rows, or lets the exception of [pickle.loads] through. *)
Lemma init_connected (c : Connection) :
  FaceRecognitionSystem_init (Some c) =
    match (if answer 0 c then unpickle_rows (select_faces c) else Return []) with
    | Return rows =>
        Return
          {| db := {| connection := Some (snd (statement c)) |};
             known_face_encodings := map row_encoding rows;
             known_face_names := map row_name rows;
             known_face_ids := map row_id rows |}
    | Raise e => Raise e
    end.
Proof.
  unfold FaceRecognitionSystem_init. cbv zeta.
  rewrite (load_known_faces_connected
             {| db := DatabaseManager_init (Some c);
                known_face_encodings := [];
                known_face_names := [];
                known_face_ids := [] |} c eq_refl).
  destruct (if answer 0 c then unpickle_rows (select_faces c) else Return []);
    reflexivity.
Qed.

(** X6.  Memory and store stay in step through an enrollment attempt.  On a
    store whose ids are all below the next [AUTO_INCREMENT] value and whose
    fetched rows all unpickle, with a gallery that holds exactly those rows
    (in any order), a [register_new_face] on a one-face image, whatever the
    server answers to its two statements, leaves a gallery that again holds
    exactly the rows a load from the store gives (an identity row orphaned
    by a refused descriptor write is in neither), provided unpickling the
    pickled encoding gives it back.  So a system constructed afterwards on
    that store, if its query is answered, starts with the entries the
    running system has, up to their order. *)
Theorem enrollment_keeps_memory_and_store_in_step
  (self : FaceRecognitionSystem) (c : Connection)
  (name : string) (face_image : Image) (loc : Box) (enc : Encoding) :
  connection (db self) = Some c ->
  in_sync self c ->
  fresh_ids c ->
  face_locations (cvtColor face_image) = [loc] ->
  face_encodings (cvtColor face_image) [loc] = [enc] ->
  pickle_loads (pickle_dumps enc) = Return enc ->
  exists out self1 c1,
    register_new_face name face_image self = (out, self1) /\
    connection (db self1) = Some c1 /\
    in_sync self1 c1 /\
    fresh_ids c1 /\
    (answer 0 c1 = true ->
     exists self2,
       FaceRecognitionSystem_init (Some c1) = Return self2 /\
       Permutation (gallery_rows self2) (gallery_rows self1)).
Proof.
  intros Hc (Hp & rows & Hrows & Hperm) Hfresh Hloc Henc Hpickle.
  destruct (register_single_face_full self c name face_image loc enc Hc Hloc Henc)
    as (c1 & E & Hu & Hf & _ & Hinc & _).
  cbv zeta in E, Hu, Hf.
  assert (Hsync : forall self1,
             in_sync self1 c1 ->
             answer 0 c1 = true ->
             exists self2,
               FaceRecognitionSystem_init (Some c1) = Return self2 /\
               Permutation (gallery_rows self2) (gallery_rows self1)).
  { intros self1 (_ & rows1 & Hrows1 & Hperm1) H0.
    rewrite init_connected, H0, Hrows1.
    eexists. split; [reflexivity|].
    unfold gallery_rows. cbn. rewrite gallery_rows_of_columns.
    now apply Permutation_sym. }
  assert (Hfresh1 : fresh_ids c1).
  { destruct Hfresh as [Hus Hfs]. split.
    - intros u Hin. rewrite Hu in Hin. rewrite Hinc.
      apply in_app_or in Hin. destruct Hin as [Hin|Hin].
      + apply Hus in Hin. destruct (answer 0 c); lia.
      + destruct (answer 0 c); [|destruct Hin].
        destruct Hin as [<-|[]]. cbn. lia.
    - intros f Hin. rewrite Hf in Hin. rewrite Hinc.
      apply in_app_or in Hin. destruct Hin as [Hin|Hin].
      + apply Hfs in Hin. destruct (answer 0 c); lia.
      + destruct (answer 0 c); [|destruct Hin].
        destruct (answer 1 c); [|destruct Hin].
        destruct Hin as [<-|[]]. cbn. lia. }
  destruct (answer 0 c) eqn:E0; [destruct (answer 1 c) eqn:E1|];
    cbn [andb] in E, Hf; eexists _, _, c1; (split; [exact E|]);
    (split; [reflexivity|]).
  - assert (Hs : in_sync
              {| db := {| connection := Some c1 |};
                 known_face_encodings := known_face_encodings self ++ [enc];
                 known_face_names := known_face_names self ++ [name];
                 known_face_ids :=
                   known_face_ids self ++ [Z.pos (users_auto_increment c)] |}
              c1).
    { destruct Hp as [Hpn Hpi]. split.
      - unfold parallel. cbn. rewrite !length_app. cbn. lia.
      - eexists. split.
        + rewrite (select_faces_enrolled c c1 name (pickle_dumps enc) Hfresh Hu Hf).
          apply (unpickle_rows_snoc _ _ rows enc Hrows). exact Hpickle.
        + unfold gallery_rows. cbn.
          rewrite gallery_rows_of_snoc by assumption.
          now apply Permutation_app_tail. }
    split; [exact Hs|]. split; [exact Hfresh1|]. now apply Hsync.
  - rewrite app_nil_r in Hf.
    assert (Hs : in_sync (set_db self {| connection := Some c1 |}) c1).
    { split; [exact Hp|]. exists rows. split; [|exact Hperm].
      now rewrite (select_faces_orphan c c1 name Hfresh Hu Hf). }
    split; [exact Hs|]. split; [exact Hfresh1|]. now apply Hsync.
  - rewrite app_nil_r in Hu, Hf.
    assert (Hs : in_sync (set_db self {| connection := Some c1 |}) c1).
    { split; [exact Hp|]. exists rows. split; [|exact Hperm].
      now rewrite (select_faces_same_tables c c1 Hu Hf). }
    split; [exact Hs|]. split; [exact Hfresh1|]. now apply Hsync.
Qed.

(** X7.  A reload whose query the server refuses forgets the gallery:
    [load_known_faces] returns normally and leaves the three lists empty,
    whatever they held, while every row is still in the store. *)
Theorem reload_refused_forgets_gallery
  (self : FaceRecognitionSystem) (c : Connection) :
  connection (db self) = Some c ->
  answer 0 c = false ->
  exists c',
    load_known_faces self =
      (Return tt,
       {| db := {| connection := Some c' |};
          known_face_encodings := [];
          known_face_names := [];
          known_face_ids := [] |}) /\
    users c' = users c /\
    face_encodings_table c' = face_encodings_table c /\
    attendance c' = attendance c.
Proof.
  intros Hc H0. rewrite (load_known_faces_connected self c Hc), H0.
  exists (snd (statement c)). split; [reflexivity|].
  destruct (statement_answer c) as (_ & Hu & Hf & Ha & _). auto.
Qed.

Lemma unpickle_rows_all (raws : list RawRow) :
  (forall raw, In raw raws ->
               exists enc, pickle_loads (raw_encoding raw) = Return enc) ->
  exists rows, unpickle_rows raws = Return rows.
Proof.
  induction raws as [|raw raws IH]; intros Hall; [now exists []|].
  cbn [unpickle_rows].
  destruct (Hall raw (or_introl eq_refl)) as (enc & ->).
  destruct IH as (rows & ->); [intros; apply Hall; now right|].
  eexists; reflexivity.
Qed.

Lemma unpickle_rows_raise (raws : list RawRow) (e : Exn) :
  unpickle_rows raws = Raise e ->
  exists raw, In raw raws /\ pickle_loads (raw_encoding raw) = Raise e.
Proof.
  induction raws as [|raw raws IH]; [discriminate|].
  cbn [unpickle_rows].
  destruct (pickle_loads (raw_encoding raw)) as [enc|e0] eqn:Eenc.
  - destruct (unpickle_rows raws) as [rows|e1]; [discriminate|].
    intros [= ->]. destruct (IH eq_refl) as (raw' & Hin & Hl).
    exists raw'. split; [now right|exact Hl].
  - intros [= ->]. exists raw. split; [now left|exact Eenc].
Qed.

Lemma unpickle_rows_return (raws : list RawRow) (rows : list FaceRow) :
  unpickle_rows raws = Return rows ->
  forall raw, In raw raws ->
              exists enc, pickle_loads (raw_encoding raw) = Return enc.
Proof.
  revert rows. induction raws as [|raw raws IH]; intros rows Hrows r Hin;
    [destruct Hin|].
  cbn [unpickle_rows] in Hrows.
  destruct (pickle_loads (raw_encoding raw)) as [enc|] eqn:Eenc; [|discriminate].
  destruct (unpickle_rows raws) as [rows'|] eqn:Er; [|discriminate].
  destruct Hin as [<-|Hin]; [eauto|]. eapply IH; eauto.
Qed.

(** X8.  What a call on a running system can raise.  In every reachable
    state [recognize_faces] returns for every frame, and
    [register_new_face] returns for every image for which the extractor
    yields at least one encoding: nothing is raised out of the connection
    or the parallel lists.  [load_known_faces] returns when the query is
    refused or when every fetched row unpickles; when the query is answered
    and some fetched row does not unpickle, the exception of a
    [pickle.loads] on a fetched row leaves [load_known_faces], before any of
    the three lists is assigned. *)
Theorem reachable_calls_return (self : FaceRecognitionSystem) :
  reachable self ->
  (forall frame, exists r, fst (recognize_faces frame self) = Return r) /\
  (forall name face_image,
      face_encodings (cvtColor face_image)
        (face_locations (cvtColor face_image)) <> [] ->
      exists r, fst (register_new_face name face_image self) = Return r) /\
  exists c,
    connection (db self) = Some c /\
    (answer 0 c = false -> fst (load_known_faces self) = Return tt) /\
    ((forall raw, In raw (select_faces c) ->
                  exists enc, pickle_loads (raw_encoding raw) = Return enc) ->
     fst (load_known_faces self) = Return tt) /\
    (forall raw e,
        answer 0 c = true ->
        In raw (select_faces c) ->
        pickle_loads (raw_encoding raw) = Raise e ->
        exists raw' e',
          In raw' (select_faces c) /\
          pickle_loads (raw_encoding raw') = Raise e' /\
          fst (load_known_faces self) = Raise e' /\
          known_face_encodings (snd (load_known_faces self))
            = known_face_encodings self /\
          known_face_names (snd (load_known_faces self))
            = known_face_names self /\
          known_face_ids (snd (load_known_faces self)) = known_face_ids self).
Proof.
  intros Hr. destruct (reachable_invariant self Hr) as [Hp Hc].
  destruct (connection (db self)) as [c|] eqn:Ec; [|now elim Hc].
  split; [|split].
  - intros frame. rewrite recognize_faces_run by assumption.
    eexists; reflexivity.
  - intros name img Hne. unfold register_new_face.
    destruct (List.length (face_locations (cvtColor img)) =? 0)%nat;
      [eexists; reflexivity|].
    destruct (1 <? List.length (face_locations (cvtColor img)))%nat;
      [eexists; reflexivity|].
    unfold bind at 1, index.
    destruct (face_encodings (cvtColor img) (face_locations (cvtColor img)))
      as [|enc rest]; [congruence|].
    cbn [nth_error ret]. unfold bind at 1, on_db.
    replace (db self) with {| connection := Some c |}
      by (destruct (db self); cbn in Ec; now subst).
    destruct (add_user_full name c) as (c1 & -> & _).
    destruct (answer 0 c); [|eexists; reflexivity].
    cbn [negb Z.eqb]. unfold bind, on_db. cbn [db].
    destruct (add_face_encoding_full (Z.pos (users_auto_increment c)) enc c1)
      as (c2 & -> & _).
    destruct (answer 0 c1); eexists; reflexivity.
  - exists c. split; [reflexivity|].
    rewrite (load_known_faces_connected self c Ec).
    split; [intros ->; reflexivity|]. split.
    + intros Hall. destruct (unpickle_rows_all _ Hall) as (rows & ->).
      destruct (answer 0 c); reflexivity.
    + intros raw e -> Hin Hraise.
      destruct (unpickle_rows (select_faces c)) as [rows|e'] eqn:Erows.
      * destruct (unpickle_rows_return _ _ Erows raw Hin) as (enc & Henc).
        congruence.
      * destruct (unpickle_rows_raise _ _ Erows) as (raw' & Hin' & Hraise').
        exists raw', e'. repeat split; assumption.
Qed.

(** ** app.py: camera probing *)

Local Abbreviation delivers VideoCapture i :=
  (exists frame rest, VideoCapture i = Some (frame :: rest)).

Lemma first_working_camera_seq (VideoCapture : nat -> Capture) (n : nat) :
  forall s : nat,
    (forall i,
        first_working_camera VideoCapture (seq s n) = Some i <->
        (s <= i < s + n)%nat /\ delivers VideoCapture i /\
        (forall j, (s <= j < i)%nat -> ~ delivers VideoCapture j)) /\
    (first_working_camera VideoCapture (seq s n) = None <->
     (forall j, (s <= j < s + n)%nat -> ~ delivers VideoCapture j)).
Proof.
  induction n as [|n IH]; intros s.
  - cbn. split.
    + intros i. split; [discriminate|]. intros (H & _). lia.
    + split; [|reflexivity]. intros _ j H. lia.
  - cbn [seq first_working_camera]. destruct (IH (S s)) as (IHs & IHn).
    assert (Hskip : ~ delivers VideoCapture s ->
      (forall i,
          first_working_camera VideoCapture (seq (S s) n) = Some i <->
          (s <= i < s + S n)%nat /\ delivers VideoCapture i /\
          (forall j, (s <= j < i)%nat -> ~ delivers VideoCapture j)) /\
      (first_working_camera VideoCapture (seq (S s) n) = None <->
       (forall j, (s <= j < s + S n)%nat -> ~ delivers VideoCapture j))).
    { intros Hs. split.
      - intros i. rewrite IHs. split.
        + intros (Hb & Hd & Hf). split; [lia|]. split; [exact Hd|].
          intros j Hj. destruct (Nat.eq_dec j s) as [->|Hne]; [exact Hs|].
          apply Hf. lia.
        + intros (Hb & Hd & Hf).
          assert (i <> s) by (intros ->; exact (Hs Hd)).
          split; [lia|]. split; [exact Hd|]. intros j Hj. apply Hf. lia.
      - rewrite IHn. split.
        + intros Hf j Hj. destruct (Nat.eq_dec j s) as [->|Hne]; [exact Hs|].
          apply Hf. lia.
        + intros Hf j Hj. apply Hf. lia. }
    destruct (VideoCapture s) as [[|frame rest]|] eqn:Es.
    + apply Hskip. intros (f & r & H). discriminate.
    + split.
      * intros i. split.
        -- intros [= <-]. split; [lia|]. split; [eauto|]. intros j Hj. lia.
        -- intros (Hb & Hd & Hf).
           destruct (Nat.eq_dec i s) as [->|Hne]; [reflexivity|].
           exfalso. apply (Hf s); [lia|]. eauto.
      * split; [discriminate|]. intros Hf. exfalso. apply (Hf s); [lia|]. eauto.
    + apply Hskip. intros (f & r & H). discriminate.
Qed.

(** X9.  [check_camera_availability] returns the smallest index among 0, 1
    and 2 whose device opens and delivers a frame; it returns [None]
    exactly when none of these three does, whatever the devices at index 3
    and above do; a device that opens without delivering a frame is passed
    over. *)
Theorem check_camera_first_working (VideoCapture : nat -> Capture) :
  (forall i,
      check_camera_availability VideoCapture = Some i <->
      (i < 3)%nat /\ delivers VideoCapture i /\
      (forall j, (j < i)%nat -> ~ delivers VideoCapture j)) /\
  (check_camera_availability VideoCapture = None <->
   (forall j, (j < 3)%nat -> ~ delivers VideoCapture j)).
Proof.
  unfold check_camera_availability.
  destruct (first_working_camera_seq VideoCapture 3 0) as (Hs & Hn). split.
  - intros i. rewrite Hs. split.
    + intros (Hb & Hd & Hf). split; [lia|]. split; [exact Hd|].
      intros j Hj. apply Hf. lia.
    + intros (Hb & Hd & Hf). split; [lia|]. split; [exact Hd|].
      intros j Hj. apply Hf. lia.
  - rewrite Hn. split; intros Hf j Hj; apply Hf; lia.
Qed.

(** ** app.py: the webcam loop *)

Lemma labels_of_decision (self : FaceRecognitionSystem) (frame : Image) :
  parallel self -> connected self ->
  labels_of self frame =
    (map (fun e => fst (decision self e))
         (face_encodings (cvtColor frame) (face_locations (cvtColor frame))),
     map (fun e => snd (decision self e))
         (face_encodings (cvtColor frame) (face_locations (cvtColor frame)))).
Proof.
  intros Hp Hc. unfold labels_of. now rewrite recognize_faces_run.
Qed.

Lemma record_all_app (a b : list Z) (d : DatabaseManager) :
  record_all (a ++ b) d = record_all b (record_all a d).
Proof. unfold record_all. apply fold_left_app. Qed.

Lemma record_all_connected (uids : list Z) (d : DatabaseManager) :
  connection d <> None -> connection (record_all uids d) <> None.
Proof.
  intros H. destruct d as [[c|]]; [|now elim H].
  destruct (record_all_attendance uids c) as (c' & -> & _). discriminate.
Qed.

Lemma webcam_loop_run (self : FaceRecognitionSystem) (t : Q)
  (stream : list Image) :
  parallel self ->
  forall d : DatabaseManager,
    connection d <> None ->
    webcam_loop t stream (set_db self d) =
      (map (fun frame =>
              combine (face_locations (cvtColor frame))
                      (map (fun e => fst (decision self e))
                           (face_encodings (cvtColor frame)
                              (face_locations (cvtColor frame)))))
           stream,
       CaptureFailed,
       set_db self
         (record_all
            (flat_map
               (fun frame =>
                  recognized
                    (map (fun e => snd (decision self e))
                         (face_encodings (cvtColor frame)
                            (face_locations (cvtColor frame)))))
               stream)
            d)).
Proof.
  intros Hp. induction stream as [|frame rest IH]; intros d Hd; [reflexivity|].
  cbn [webcam_loop map flat_map]. unfold home_page_frame.
  rewrite (recognize_faces_run (set_db self d) frame Hp Hd).
  change (db (set_db self d)) with d.
  match goal with
  | |- context [webcam_loop t rest (set_db (set_db self d) ?d1)] =>
      change (set_db (set_db self d) d1) with (set_db self d1);
      rewrite (IH d1) by (now apply record_all_connected)
  end.
  now rewrite record_all_app.
Qed.

Lemma flat_map_repeat_length {A B : Type} (f : A -> list B) (x : A) (n : nat) :
  List.length (flat_map f (repeat x n)) = (n * List.length (f x))%nat.
Proof.
  induction n as [|n IH]; [reflexivity|].
  cbn [repeat flat_map]. rewrite length_app, IH. lia.
Qed.

(** X10.  The webcam loop on a system whose lists are parallel and that
    holds a connection: every frame the device delivers is processed and
    the loop ends on the failed read, never on an exception; the labels
    drawn on a frame are those [recognize_faces] gives for it on the system
    as it was when the loop started; the gallery, [users] and
    [face_encodings] are unchanged; and attendance rows accumulate frame
    after frame with no de-duplication: the same frame delivered [n] times
    to a server that answers every statement adds [n] rows per matched
    face. *)
Theorem webcam_loop_accumulates
  (self : FaceRecognitionSystem) (c : Connection) (t : Q)
  (stream : list Image) :
  parallel self ->
  connection (db self) = Some c ->
  exists c',
    webcam_loop t stream self =
      (map (fun frame =>
              combine (face_locations (cvtColor frame))
                      (fst (labels_of self frame))) stream,
       CaptureFailed,
       set_db self {| connection := Some c' |}) /\
    users c' = users c /\
    face_encodings_table c' = face_encodings_table c /\
    attendance c' =
      attendance c ++
        committed (availability c)
          (flat_map (fun frame => recognized (snd (labels_of self frame)))
                    stream) /\
    (forallb (fun b => b) (availability c) = true ->
     forall frame n,
       stream = repeat frame n ->
       List.length (attendance c') =
         (List.length (attendance c) +
          n * List.length (recognized (snd (labels_of self frame))))%nat).
Proof.
  intros Hp Hc.
  assert (Hconn : connected self) by (unfold connected; congruence).
  set (uids := flat_map (fun frame => recognized (snd (labels_of self frame)))
                        stream).
  destruct (record_all_attendance uids c) as (c' & E & Ha & Hu & Hf & _).
  exists c'. split; [|split; [exact Hu|split; [exact Hf|split; [exact Ha|]]]].
  - rewrite <- (set_db_db self) at 1.
    rewrite (webcam_loop_run self t stream Hp (db self) Hconn).
    f_equal; [f_equal|].
    + apply map_ext. intros frame.
      now rewrite (labels_of_decision self frame Hp Hconn).
    + f_equal. rewrite <- E.
      replace (db self) with {| connection := Some c |}
        by (destruct (db self); cbn in Hc; now subst).
      f_equal. unfold uids. apply flat_map_ext. intros frame.
      now rewrite (labels_of_decision self frame Hp Hconn).
  - intros Hall frame n Hs. rewrite Ha, (committed_all _ _ Hall), length_app.
    unfold uids. rewrite Hs. now rewrite flat_map_repeat_length.
Qed.

(** ** app.py: the registration form *)

(** X11.  The block "Process registration" of [register_page], on any
    object: without a submit, a name or an upload it shows nothing and
    changes nothing; an upload OpenCV cannot decode is reported and changes
    nothing; an exception raised while reading the upload is reported with
    its text and changes nothing; in every other run exactly one notice is
    shown, which is a success notice exactly when the gallery gained the
    entry with the given name, every other run leaving the three lists as
    they were. *)
Theorem registration_form_outcome
  (self : FaceRecognitionSystem) (submit_button : bool) (name : string)
  (uploaded_file : option (Outcome (option Image))) :
  ((submit_button = false \/ name = ""%string \/ uploaded_file = None) ->
   process_registration submit_button name uploaded_file self = ([], self)) /\
  (submit_button = true -> name <> ""%string ->
   uploaded_file = Some (Return None) ->
   process_registration submit_button name uploaded_file self =
     ([st_error "Failed to read image. Please try again."], self)) /\
  (forall e,
      submit_button = true -> name <> ""%string ->
      uploaded_file = Some (Raise e) ->
      process_registration submit_button name uploaded_file self =
        ([st_error ("Error during registration: " ++ str_exn e)%string], self)) /\
  (submit_button = true -> name <> ""%string -> uploaded_file <> None ->
   List.length
     (fst (process_registration submit_button name uploaded_file self)) = 1%nat) /\
  (forall message,
      In (st_success message)
         (fst (process_registration submit_button name uploaded_file self)) ->
      message = registered_message name /\
      exists enc uid,
        known_face_encodings
          (snd (process_registration submit_button name uploaded_file self))
          = known_face_encodings self ++ [enc] /\
        known_face_names
          (snd (process_registration submit_button name uploaded_file self))
          = known_face_names self ++ [name] /\
        known_face_ids
          (snd (process_registration submit_button name uploaded_file self))
          = known_face_ids self ++ [uid]) /\
  ((forall message,
       ~ In (st_success message)
            (fst (process_registration submit_button name uploaded_file self))) ->
   known_face_encodings
     (snd (process_registration submit_button name uploaded_file self))
     = known_face_encodings self /\
   known_face_names
     (snd (process_registration submit_button name uploaded_file self))
     = known_face_names self /\
   known_face_ids
     (snd (process_registration submit_button name uploaded_file self))
     = known_face_ids self).
Proof.
  assert (Hquiet : forall notes,
             (forall m, ~ In (st_success m) notes) ->
             (forall message,
                 In (st_success message) (fst (notes, self)) ->
                 message = registered_message name /\
                 exists enc uid,
                   known_face_encodings (snd (notes, self))
                     = known_face_encodings self ++ [enc] /\
                   known_face_names (snd (notes, self))
                     = known_face_names self ++ [name] /\
                   known_face_ids (snd (notes, self))
                     = known_face_ids self ++ [uid]) /\
             ((forall message, ~ In (st_success message) (fst (notes, self))) ->
              known_face_encodings (snd (notes, self))
                = known_face_encodings self /\
              known_face_names (snd (notes, self)) = known_face_names self /\
              known_face_ids (snd (notes, self)) = known_face_ids self)).
  { intros notes Hnone. split; [|auto].
    intros m Hin. now elim (Hnone m). }
  unfold process_registration.
  destruct uploaded_file as [reading|].
  2:{ split; [reflexivity|]. split; [discriminate|]. split; [discriminate|].
      split; [intros _ _ H; now elim H|].
      apply Hquiet. intros m []. }
  destruct submit_button; cbn [andb].
  2:{ split; [reflexivity|]. split; [discriminate|]. split; [discriminate|].
      split; [discriminate|]. apply Hquiet. intros m []. }
  destruct (name =? "")%string eqn:En; cbn [negb].
  { apply String.eqb_eq in En.
    split; [reflexivity|]. split; [intros _ Hne; contradiction|].
    split; [intros e _ Hne; contradiction|].
    split; [intros _ Hne; contradiction|].
    apply Hquiet. intros m []. }
  apply String.eqb_neq in En.
  split; [intros [H|[H|H]]; [discriminate|contradiction|discriminate]|].
  destruct reading as [[img|]|e0].
  - destruct (register_new_face name img self) as [out self'] eqn:E.
    destruct (register_effect self self' name img out E) as (_ & _ & Hcases).
    split; [discriminate|]. split; [discriminate|].
    destruct Hcases as [(-> & c' & enc & uid & _ & _ & _ & He & Hn & Hi)
                       |(Hno & He & Hn & Hi)].
    + cbn. split; [reflexivity|]. split.
      * intros m [[= <-]|[]]. split; [reflexivity|]. exists enc, uid. auto.
      * intros Hnone. exfalso.
        apply (Hnone (registered_message name)). now left.
    + destruct out as [[[|] m]|ex]; [now elim (Hno m)| |]; cbn;
        (split; [reflexivity|]);
        (split; [intros m' [H|[]]; discriminate|auto]).
  - split; [reflexivity|]. split; [discriminate|]. split; [reflexivity|].
    apply Hquiet. intros m [H|[]]; discriminate.
  - split; [discriminate|]. split; [intros e _ _ [= ->]; reflexivity|].
    split; [reflexivity|].
    apply Hquiet. intros m [H|[]]; discriminate.
Qed.

(** ** Attendance rows and the identities they name *)

Lemma committed_incl (avail : list bool) (uids : list Z) (uid : Z) :
  In uid (committed avail uids) -> In uid uids.
Proof.
  revert avail. induction uids as [|u rest IH]; intros avail; [auto|].
  destruct avail as [|[|] avail']; cbn [committed]; [auto| |].
  - intros [->|Hin]; [now left|right; eauto].
  - intros Hin. right. eauto.
Qed.

Lemma recognized_In (ids : list (option Z)) (uid : Z) :
  In uid (recognized ids) <-> In (Some uid) ids.
Proof.
  unfold recognized. rewrite in_flat_map. split.
  - intros ([u|] & Hin & Hu); [|destruct Hu].
    destruct Hu as [->|[]]. exact Hin.
  - intros Hin. exists (Some uid). split; [exact Hin|now left].
Qed.

(** X12.  Attendance rows name enrolled identities: on a running system,
    every row [recognize_faces] adds to [attendance] carries an id of the
    gallery, and that id has its identity row in [users]. *)
Theorem attendance_rows_reference_users
  (self : FaceRecognitionSystem) (frame : Image) :
  reachable self ->
  exists c c' ats,
    connection (db self) = Some c /\
    connection (db (snd (recognize_faces frame self))) = Some c' /\
    attendance c' = attendance c ++ ats /\
    (forall uid,
        In uid ats ->
        In uid (known_face_ids self) /\
        exists name, In {| user_id := uid; user_name := name |} (users c')).
Proof.
  intros Hr. destruct (reachable_invariant self Hr) as [Hp _].
  destruct (reachable_backed self Hr) as (c & Hc & Hb).
  destruct (recognize_faces_spec self c frame Hp Hc) as (c' & E & Ha & Hu & _).
  cbv zeta in E, Ha. rewrite E. cbn [snd].
  eexists c, c', _. split; [exact Hc|]. split; [reflexivity|].
  split; [exact Ha|].
  intros uid Hin. apply committed_incl, recognized_In, in_map_iff in Hin.
  destruct Hin as (e & He & _).
  destruct (decision_cases self e Hp) as [Ed|(b & name & uid' & Hn & Hi & Ed)];
    rewrite Ed in He; [discriminate|].
  injection He as ->.
  split; [eapply nth_error_In; eauto|].
  exists name. rewrite Hu.
  destruct Hp as [Hpn Hpi].
  assert (Hlt : (b < List.length (known_face_encodings self))%nat).
  { rewrite <- Hpn. apply nth_error_Some. congruence. }
  destruct (nth_error (known_face_encodings self) b) as [enc|] eqn:Ee;
    [|apply nth_error_None in Ee; lia].
  exact (proj1 (Hb b name uid enc Hn Hi Ee)).
Qed.

End Further.

(** * The further properties at work on the concrete world *)

(** Witness of X1: a third person enrolled from the probe, then recognized. *)
Lemma register_then_recognize_witness :
  parallel (demo_system []) /\
  (distance (0%Q : @Encoding demo) 0%Q <= tolerance)%Q /\
  (forall k, In k (known_face_encodings (demo_system [])) ->
             (distance (0%Q : @Encoding demo) 0%Q < distance k 0%Q)%Q) /\
  exists self1 self2,
    register_new_face "C" probe_frame (demo_system []) =
      (Return (true, registered_message "C"), self1) /\
    recognize_faces probe_frame self1 =
      (Return ([demo_box], ["C"%string],
               [Some (Z.pos (users_auto_increment (demo_server [])))]),
       self2).
Proof.
  assert (Hnear : forall k, In k (known_face_encodings (demo_system [])) ->
             (distance (0%Q : @Encoding demo) 0%Q < distance k 0%Q)%Q).
  { intros k [<-|[<-|[]]]; vm_compute; reflexivity. }
  split; [split; reflexivity|]. split; [vm_compute; discriminate|].
  split; [exact Hnear|].
  apply (register_then_recognize
           (demo_system []) (demo_server []) "C" probe_frame demo_box 0%Q);
    try reflexivity; try exact Hnear.
  - split; reflexivity.
  - vm_compute; discriminate.
Defined.

(** Witness of X2: the face of A enrolled again under another name. *)
Lemma duplicate_enrollment_shadowed_witness :
  In ((1 # 10)%Q : @Encoding demo) (known_face_encodings (demo_system [])) /\
  (distance ((1 # 10)%Q : @Encoding demo) (1 # 10)%Q
     <= distance ((1 # 10)%Q : @Encoding demo) (1 # 10)%Q)%Q /\
  exists self1,
    register_new_face "A2" ([(demo_box, (1 # 10)%Q)] : @Image demo) (demo_system []) =
      (Return (true, registered_message "A2"), self1) /\
    known_face_names self1 = known_face_names (demo_system []) ++ ["A2"%string] /\
    fst (recognize_faces ([(demo_box, (1 # 10)%Q)] : @Image demo) self1)
      = fst (recognize_faces ([(demo_box, (1 # 10)%Q)] : @Image demo)
               (demo_system [])).
Proof.
  split; [now left|]. split; [apply Qle_refl|].
  apply (duplicate_enrollment_shadowed
           (demo_system []) (demo_server []) "A2"
           ([(demo_box, (1 # 10)%Q)] : @Image demo) demo_box
           (1 # 10)%Q (1 # 10)%Q);
    try reflexivity.
  - split; reflexivity.
  - now left.
  - apply Qle_refl.
Defined.

(** Witness of X5: the system in which "Unknown" was enrolled. *)
Lemma gallery_entries_backed_witness :
  reachable unknown_named_system /\
  exists c, connection (db unknown_named_system) = Some c /\
            backed unknown_named_system c.
Proof.
  split; [exact unknown_named_system_reachable|].
  apply (gallery_entries_backed unknown_named_system).
  exact unknown_named_system_reachable.
Defined.

(** Witness of X6: an enrollment on the demo store that succeeds, and one
    whose descriptor write is refused. *)
Lemma enrollment_keeps_in_step_witness :
  (in_sync (demo_system []) (demo_server []) /\
   fresh_ids (demo_server []) /\
   exists out self1 c1,
     register_new_face "C" probe_frame (demo_system []) = (out, self1) /\
     connection (db self1) = Some c1 /\
     in_sync self1 c1 /\
     fresh_ids c1 /\
     (answer 0 c1 = true ->
      exists self2,
        FaceRecognitionSystem_init (Some c1) = Return self2 /\
        Permutation (gallery_rows self2) (gallery_rows self1))) /\
  (in_sync (demo_system [true; false]) (demo_server [true; false]) /\
   fresh_ids (demo_server [true; false]) /\
   exists out self1 c1,
     register_new_face "C" probe_frame (demo_system [true; false]) = (out, self1) /\
     connection (db self1) = Some c1 /\
     in_sync self1 c1 /\
     fresh_ids c1 /\
     (answer 0 c1 = true ->
      exists self2,
        FaceRecognitionSystem_init (Some c1) = Return self2 /\
        Permutation (gallery_rows self2) (gallery_rows self1))).
Proof.
  assert (Hfresh : forall avail, fresh_ids (demo_server avail)).
  { intros avail. split.
    - intros u [<-|[<-|[]]]; cbn; lia.
    - intros f [<-|[<-|[]]]; cbn; lia. }
  assert (Hsync : forall avail, in_sync (demo_system avail) (demo_server avail)).
  { intros avail. split; [split; reflexivity|].
    eexists. split; [reflexivity|]. apply Permutation_refl. }
  split; (split; [apply Hsync|]); (split; [apply Hfresh|]).
  - apply (enrollment_keeps_memory_and_store_in_step
             (demo_system []) (demo_server [])
             "C" probe_frame demo_box 0%Q);
      try reflexivity; [apply Hsync|apply Hfresh].
  - apply (enrollment_keeps_memory_and_store_in_step
             (demo_system [true; false]) (demo_server [true; false])
             "C" probe_frame demo_box 0%Q);
      try reflexivity; [apply Hsync|apply Hfresh].
Defined.

(** Witness of X7: the demo system reloading from a server that refuses the
    query. *)
Lemma reload_refused_forgets_gallery_witness :
  known_face_names (demo_system [false]) = ["A"%string; "B"%string] /\
  answer 0 (demo_server [false]) = false /\
  exists c',
    load_known_faces (demo_system [false]) =
      (Return tt,
       {| db := {| connection := Some c' |};
          known_face_encodings := [];
          known_face_names := [];
          known_face_ids := [] |}) /\
    users c' = users (demo_server [false]) /\
    face_encodings_table c' = face_encodings_table (demo_server [false]) /\
    attendance c' = attendance (demo_server [false]).
Proof.
  split; [reflexivity|]. split; [reflexivity|].
  apply (reload_refused_forgets_gallery (demo_system [false]) (demo_server [false]));
    reflexivity.
Defined.

(** Witness of X8: the system started on the demo server, where every call
    returns; and the system started on the store with a row that does not
    unpickle, whose reload raises the exception of [pickle.loads]. *)
Lemma reachable_calls_return_witness :
  (reachable (demo_system []) /\
   (forall frame, exists r,
       fst (recognize_faces frame (demo_system [])) = Return r) /\
   fst (load_known_faces (demo_system [])) = Return tt) /\
  (FaceRecognitionSystem_init (Some (corrupt_server [false]))
     = Return corrupt_system /\
   reachable corrupt_system /\
   fst (load_known_faces corrupt_system)
     = Raise (OtherError "invalid load key") /\
   known_face_names (snd (load_known_faces corrupt_system))
     = known_face_names corrupt_system).
Proof.
  split.
  - split; [exact demo_system_reachable|].
    destruct (reachable_calls_return (demo_system []) demo_system_reachable)
      as (Hrec & _ & c & Hc & _ & Hok & _).
    split; [exact Hrec|].
    injection Hc as <-. apply Hok.
    intros raw [<-|[<-|[]]]; eexists; reflexivity.
  - assert (Hr : reachable corrupt_system)
      by exact (reach_init (Some (corrupt_server [false])) corrupt_system eq_refl).
    split; [reflexivity|]. split; [exact Hr|].
    destruct (reachable_calls_return corrupt_system Hr)
      as (_ & _ & c & Hc & _ & _ & Hraise).
    injection Hc as <-.
    destruct (Hraise (@Build_RawRow demo 1 "A" (-1)%Q)
                (OtherError "invalid load key") eq_refl
                (or_introl eq_refl) eq_refl)
      as (raw' & e' & _ & _ & H1 & _ & H2 & _).
    split; [|exact H2].
    vm_compute in H1. injection H1 as <-. reflexivity.
Defined.

(** Witness of X9: device 0 opens without a frame and device 1 works; and
    a world whose only working device is at index 3. *)
Lemma check_camera_first_working_witness :
  check_camera_availability demo_cameras = Some 1%nat /\
  check_camera_availability far_camera = None.
Proof.
  split.
  - apply (proj1 (check_camera_first_working demo_cameras) 1%nat).
    split; [lia|]. split; [eexists _, _; reflexivity|].
    intros j Hj (f & r & H). destruct j; [discriminate|lia].
  - apply (proj2 (check_camera_first_working far_camera)).
    intros j Hj (f & r & H). destruct j as [|[|[|j]]]; try discriminate; lia.
Defined.

(** Witness of X10: the probe delivered twice. *)
Lemma webcam_loop_accumulates_witness :
  parallel (demo_system []) /\
  connection (db (demo_system [])) = Some (demo_server []) /\
  exists c',
    webcam_loop (6 # 10)%Q [probe_frame; probe_frame] (demo_system []) =
      (map (fun frame =>
              combine (face_locations (cvtColor frame))
                      (fst (labels_of (demo_system []) frame)))
           [probe_frame; probe_frame],
       CaptureFailed,
       set_db (demo_system []) {| connection := Some c' |}) /\
    users c' = users (demo_server []) /\
    face_encodings_table c' = face_encodings_table (demo_server []) /\
    attendance c' =
      attendance (demo_server []) ++
        committed (availability (demo_server []))
          (flat_map (fun frame => recognized (snd (labels_of (demo_system []) frame)))
                    [probe_frame; probe_frame]) /\
    (forallb (fun b => b) (availability (demo_server [])) = true ->
     forall frame n,
       [probe_frame; probe_frame] = repeat frame n ->
       List.length (attendance c') =
         (List.length (attendance (demo_server [])) +
          n * List.length (recognized (snd (labels_of (demo_system []) frame))))%nat).
Proof.
  split; [split; reflexivity|]. split; [reflexivity|].
  apply (webcam_loop_accumulates
           (demo_system []) (demo_server []) (6 # 10)%Q
           [probe_frame; probe_frame]).
  - split; reflexivity.
  - reflexivity.
Defined.

(** Witness of X11: a blank name; an upload OpenCV cannot decode; an upload
    whose reading raises; an enrollment that succeeds; a picture with two
    faces; and an object without a connection, whose [AttributeError] is
    caught. *)
Lemma registration_form_outcome_witness :
  process_registration true "" (Some (Return (Some probe_frame))) (demo_system [])
    = ([], demo_system []) /\
  process_registration true "C" (Some (Return None)) (demo_system [])
    = ([st_error "Failed to read image. Please try again."], demo_system []) /\
  process_registration true "C" (Some (Raise (OtherError "empty buffer")))
    (demo_system [])
    = ([st_error "Error during registration: empty buffer"], demo_system []) /\
  (fst (process_registration true "C" (Some (Return (Some probe_frame)))
          (demo_system []))
     = [st_success "User C registered successfully"] /\
   exists enc uid,
     known_face_encodings
       (snd (process_registration true "C" (Some (Return (Some probe_frame)))
               (demo_system [])))
       = known_face_encodings (demo_system []) ++ [enc] /\
     known_face_names
       (snd (process_registration true "C" (Some (Return (Some probe_frame)))
               (demo_system [])))
       = known_face_names (demo_system []) ++ ["C"%string] /\
     known_face_ids
       (snd (process_registration true "C" (Some (Return (Some probe_frame)))
               (demo_system [])))
       = known_face_ids (demo_system []) ++ [uid]) /\
  (fst (process_registration true "C" (Some (Return (Some two_faces_frame)))
          (demo_system []))
     = [st_error multiple_faces_message] /\
   known_face_names
     (snd (process_registration true "C" (Some (Return (Some two_faces_frame)))
             (demo_system [])))
     = known_face_names (demo_system [])) /\
  (fst (process_registration true "C" (Some (Return (Some probe_frame)))
          (set_db (demo_system []) {| connection := None |}))
     = [st_error
          "Error during registration: 'NoneType' object has no attribute 'cursor'"] /\
   known_face_names
     (snd (process_registration true "C" (Some (Return (Some probe_frame)))
             (set_db (demo_system []) {| connection := None |})))
     = known_face_names (demo_system [])).
Proof.
  split.
  { apply (proj1 (registration_form_outcome
                    (demo_system []) true "" (Some (Return (Some probe_frame))))).
    right. left. reflexivity. }
  split.
  { apply (proj1 (proj2 (registration_form_outcome
                           (demo_system []) true "C" (Some (Return None)))));
      [reflexivity|discriminate|reflexivity]. }
  split.
  { apply (proj1 (proj2 (proj2 (registration_form_outcome
                                  (demo_system []) true "C"
                                  (Some (Raise (OtherError "empty buffer"))))))
             (OtherError "empty buffer"));
      [reflexivity|discriminate|reflexivity]. }
  split.
  { split; [reflexivity|].
    apply (proj1 (proj2 (proj2 (proj2 (proj2
             (registration_form_outcome
                (demo_system []) true "C" (Some (Return (Some probe_frame))))))))
             "User C registered successfully"%string).
    now left. }
  split.
  { split; [reflexivity|].
    apply (proj2 (proj2 (proj2 (proj2 (proj2
             (registration_form_outcome
                (demo_system []) true "C"
                (Some (Return (Some two_faces_frame))))))))).
    intros m [H|[]]. discriminate. }
  split; [reflexivity|].
  apply (proj2 (proj2 (proj2 (proj2 (proj2
           (registration_form_outcome
              (set_db (demo_system []) {| connection := None |}) true "C"
              (Some (Return (Some probe_frame))))))))).
  intros m [H|[]]. discriminate.
Defined.

(** Witness of X12: the probe shown to the system started on the demo
    server. *)
Lemma attendance_rows_reference_users_witness :
  reachable (demo_system []) /\
  exists c c' ats,
    connection (db (demo_system [])) = Some c /\
    connection (db (snd (recognize_faces probe_frame (demo_system [])))) = Some c' /\
    attendance c' = attendance c ++ ats /\
    (forall uid,
        In uid ats ->
        In uid (known_face_ids (demo_system [])) /\
        exists name, In {| user_id := uid; user_name := name |} (users c')).
Proof.
  split; [exact demo_system_reachable|].
  apply (attendance_rows_reference_users (demo_system []) probe_frame).
  exact demo_system_reachable.
Defined.
